(** * interview_agent.py: a shallow embedding and its checked properties

    The script interviews a user with the "5 Whys" technique through a chat
    session of a text-generation service, asks the service for a Product
    Requirements Document, and writes it to a file.

    The embedding threads one [state] (environment, standard input, files,
    the agent's fields, and the trace of observable actions) through a small
    state-and-exception monad.  The remote service and the disk are oracles
    gathered in [services]; every theorem quantifies over them. *)

From Stdlib Require Import String Ascii List ZArith Lia Bool DecimalString.
From stdpp Require Import gmap strings list fin_maps.

Import ListNotations.
Local Open Scope string_scope.
Local Open Scope list_scope.

(** ** Text *)

Module Text.

(** The newline and escape characters, which Python writes "\n" and "\033". *)
Definition nl : string := String (ascii_of_nat 10) EmptyString.
Definition esc : string := String (ascii_of_nat 27) EmptyString.

(** A text is the string of the bytes of its UTF-8 form.

    [str.lower()], on texts whose letters are ASCII: the characters
    'A'..'Z' move to 'a'..'z', every other byte is kept.  (No character
    outside ASCII lowers to one of the letters of "exit", "quit" or "done",
    so the exit test below decides as Python's does on every text.) *)
Definition lower_char (c : ascii) : ascii :=
  let n := nat_of_ascii c in
  if (65 <=? n)%nat && (n <=? 90)%nat then ascii_of_nat (n + 32) else c.

Fixpoint lower (s : string) : string :=
  match s with
  | EmptyString => EmptyString
  | String c s' => String (lower_char c) (lower s')
  end.

(** [str.isspace()] on one ASCII character: tab, line feed, vertical tab,
    form feed, carriage return, the four separators 0x1c..0x1f and space. *)
Definition is_space (c : ascii) : bool :=
  let n := nat_of_ascii c in
  ((9 <=? n)%nat && (n <=? 13)%nat) || ((28 <=? n)%nat && (n <=? 32)%nat).

(** The Unicode whitespace outside ASCII, by the bytes of its UTF-8 form:
    U+0085 and U+00A0 take two bytes; U+1680, U+2000..U+200A, U+2028,
    U+2029, U+202F, U+205F and U+3000 take three.  With [is_space] these
    are the characters of which [str.isspace()] holds. *)
Definition two_byte_space (a b : ascii) : bool :=
  let x := nat_of_ascii a in
  let y := nat_of_ascii b in
  (x =? 194)%nat && ((y =? 133)%nat || (y =? 160)%nat).

Definition three_byte_space (a b c : ascii) : bool :=
  let x := nat_of_ascii a in
  let y := nat_of_ascii b in
  let z := nat_of_ascii c in
  ((x =? 225)%nat && (y =? 154)%nat && (z =? 128)%nat)
  || ((x =? 226)%nat && (y =? 128)%nat
      && (((128 <=? z)%nat && (z <=? 138)%nat)
          || (z =? 168)%nat || (z =? 169)%nat || (z =? 175)%nat))
  || ((x =? 226)%nat && (y =? 129)%nat && (z =? 159)%nat)
  || ((x =? 227)%nat && (y =? 128)%nat && (z =? 128)%nat).

(** The number of bytes of the whitespace character a text begins with,
    0 when it begins with none. *)
Definition space_width (s : string) : nat :=
  match s with
  | EmptyString => 0
  | String a r1 =>
      if is_space a then 1 else
      match r1 with
      | EmptyString => 0
      | String b r2 =>
          if two_byte_space a b then 2 else
          match r2 with
          | EmptyString => 0
          | String c _ => if three_byte_space a b c then 3 else 0
          end
      end
  end.

Fixpoint lstrip (s : string) : string :=
  match s with
  | EmptyString => EmptyString
  | String a r1 =>
      if is_space a then lstrip r1 else
      match r1 with
      | EmptyString => s
      | String b r2 =>
          if two_byte_space a b then lstrip r2 else
          match r2 with
          | EmptyString => s
          | String c r3 => if three_byte_space a b c then lstrip r3 else s
          end
      end
  end.

(** The text holds whitespace only. *)
Definition all_space (s : string) : bool :=
  match lstrip s with
  | EmptyString => true
  | String _ _ => false
  end.

Fixpoint rstrip (s : string) : string :=
  match s with
  | EmptyString => EmptyString
  | String c s' => if all_space s then EmptyString else String c (rstrip s')
  end.

(** [str.strip()] with no argument. *)
Definition strip (s : string) : string := rstrip (lstrip s).

(** Some characters outside ASCII, in UTF-8: the no-break space U+00A0,
    the ideographic space U+3000, the zero-width space U+200B (which is no
    whitespace for [str.isspace()]) and the letter U+00E9. *)
Definition nbsp : string :=
  String (ascii_of_nat 194) (String (ascii_of_nat 160) EmptyString).
Definition ideographic_space : string :=
  String (ascii_of_nat 227) (String (ascii_of_nat 128)
    (String (ascii_of_nat 128) EmptyString)).
Definition zero_width_space : string :=
  String (ascii_of_nat 226) (String (ascii_of_nat 128)
    (String (ascii_of_nat 139) EmptyString)).
Definition e_acute : string :=
  String (ascii_of_nat 195) (String (ascii_of_nat 169) EmptyString).

(** [sep.join(parts)]. *)
Fixpoint join (sep : string) (parts : list string) : string :=
  match parts with
  | [] => EmptyString
  | [p] => p
  | p :: rest => p +:+ sep +:+ join sep rest
  end.

(** [str(n)] for a natural number, as an f-string renders it. *)
Definition str_of_nat (n : nat) : string :=
  NilEmpty.string_of_uint (Nat.to_uint n).

(** [x in xs] for a list of strings. *)
Definition str_in (x : string) (xs : list string) : bool :=
  existsb (String.eqb x) xs.

End Text.

Import Text.

(** ** colorama *)

Module Fore.
Definition RED : string := esc +:+ "[31m".
Definition GREEN : string := esc +:+ "[32m".
Definition YELLOW : string := esc +:+ "[33m".
Definition BLUE : string := esc +:+ "[34m".
Definition MAGENTA : string := esc +:+ "[35m".
Definition CYAN : string := esc +:+ "[36m".
End Fore.

Module Style.
Definition RESET_ALL : string := esc +:+ "[0m".
End Style.

(** ** Exceptions, state and the monad *)

(** The exceptions the script can meet.  [KeyboardInterrupt] and
    [SystemExit] derive from BaseException only; [Exception msg] stands for
    any exception [e] of a class derived from Exception, with
    [str(e) = msg] (EOFError, OSError, a service error, ...). *)
Inductive exn : Type :=
| KeyboardInterrupt
| SystemExit (code : Z)
| Exception (msg : string).

Inductive outcome (A : Type) : Type :=
| Ok (a : A)
| Raise (e : exn).
Arguments Ok {A} a.
Arguments Raise {A} e.

(** What one call of [input()] finds on standard input. *)
Inductive stdin_item : Type :=
| Line (text : string)
| CtrlC.

(** Observable actions, oldest first in a trace. *)
Inductive event : Type :=
| Print (text : string)
| Input (prompt : string) (got : outcome string)
| SendMessage (prompt : string)
| GenerateContent (prompt : string).

(** The oracles.  [chat_reply k p] is what the [k]-th call (from 0) of
    [chat.send_message(p)] followed by [response.text] yields;
    [generate_reply p] is the same for [model.generate_content(p)];
    [open_error f] is the error that opening [f] for writing raises, if
    any; [write_error f c] the error that writing [c] to [f] raises. *)
Record services : Type := {
  chat_reply : nat -> string -> outcome string;
  generate_reply : string -> outcome string;
  open_error : string -> option exn;
  write_error : string -> string -> option exn
}.

Record state : Type := {
  environ : gmap string string;
  stdin : list stdin_item;
  files : gmap string string;
  genai_api_key : option string;
  model_name : string;
  chat_turns : nat;
  conversation_history : list string;
  trace : list event
}.

Definition M (A : Type) : Type := state -> outcome A * state.

Definition ret {A} (a : A) : M A := fun st => (Ok a, st).

Definition bind {A B} (m : M A) (k : A -> M B) : M B :=
  fun st =>
    match m st with
    | (Ok a, st') => k a st'
    | (Raise e, st') => (Raise e, st')
    end.

Definition raise {A} (e : exn) : M A := fun st => (Raise e, st).

Declare Scope prog_scope.
Delimit Scope prog_scope with prog.
Bind Scope prog_scope with M.
Notation "x <- m ;; k" := (bind m (fun x => k))
  (at level 100, m at next level, k at level 200, right associativity) : prog_scope.
Notation "m ;; k" := (bind m (fun _ => k))
  (at level 100, k at level 200, right associativity) : prog_scope.
Local Open Scope prog_scope.

(** [try: body except ...]: [handler e] is the first matching clause's
    body, or [None] when no clause matches and [e] goes on propagating. *)
Definition try_except {A} (body : M A) (handler : exn -> option (M A)) : M A :=
  fun st =>
    match body st with
    | (Ok a, st') => (Ok a, st')
    | (Raise e, st') =>
        match handler e with
        | Some h => h st'
        | None => (Raise e, st')
        end
    end.

(** ** Primitive actions *)

Definition emit (ev : event) : M unit :=
  fun st =>
    (Ok tt, {| environ := environ st; stdin := stdin st; files := files st;
               genai_api_key := genai_api_key st; model_name := model_name st;
               chat_turns := chat_turns st;
               conversation_history := conversation_history st;
               trace := trace st ++ [ev] |}).

(** [print(text)].  Standard output is taken to be writable: the text is
    printed and the call returns. *)
Definition print (text : string) : M unit := emit (Print text).

(** [os.getenv(name)]. *)
Definition getenv (name : string) : M (option string) :=
  fun st => (Ok (environ st !! name), st).

(** [sys.exit(code)]. *)
Definition sys_exit {A} (code : Z) : M A := raise (SystemExit code).

(** [genai.configure(api_key=key)]: records the key, contacts nobody. *)
Definition genai_configure (key : string) : M unit :=
  fun st =>
    (Ok tt, {| environ := environ st; stdin := stdin st; files := files st;
               genai_api_key := Some key; model_name := model_name st;
               chat_turns := chat_turns st;
               conversation_history := conversation_history st;
               trace := trace st |}).

(** [input(prompt)]: a line, an interrupt, or EOFError at end of input. *)
Definition input (prompt : string) : M string :=
  fun st =>
    let '(r, rest) :=
      match stdin st with
      | Line text :: rest => (Ok text, rest)
      | CtrlC :: rest => (Raise KeyboardInterrupt, rest)
      | [] => (Raise (Exception "EOF when reading a line"), [])
      end in
    (r, {| environ := environ st; stdin := rest; files := files st;
           genai_api_key := genai_api_key st; model_name := model_name st;
           chat_turns := chat_turns st;
           conversation_history := conversation_history st;
           trace := trace st ++ [Input prompt r] |}).

(** [self.conversation_history.append(entry)]. *)
Definition history_append (entry : string) : M unit :=
  fun st =>
    (Ok tt, {| environ := environ st; stdin := stdin st; files := files st;
               genai_api_key := genai_api_key st; model_name := model_name st;
               chat_turns := chat_turns st;
               conversation_history := conversation_history st ++ [entry];
               trace := trace st |}).

(** [self.chat.send_message(prompt)] and the [.text] of its response. *)
Definition send_message (svc : services) (prompt : string) : M string :=
  fun st =>
    (chat_reply svc (chat_turns st) prompt,
     {| environ := environ st; stdin := stdin st; files := files st;
        genai_api_key := genai_api_key st; model_name := model_name st;
        chat_turns := S (chat_turns st);
        conversation_history := conversation_history st;
        trace := trace st ++ [SendMessage prompt] |}).

(** [self.model.generate_content(prompt)] and the [.text] of its response. *)
Definition generate_content (svc : services) (prompt : string) : M string :=
  fun st =>
    (generate_reply svc prompt,
     {| environ := environ st; stdin := stdin st; files := files st;
        genai_api_key := genai_api_key st; model_name := model_name st;
        chat_turns := chat_turns st;
        conversation_history := conversation_history st;
        trace := trace st ++ [GenerateContent prompt] |}).

Definition set_file (filename content : string) : M unit :=
  fun st =>
    (Ok tt, {| environ := environ st; stdin := stdin st;
               files := <[filename := content]> (files st);
               genai_api_key := genai_api_key st; model_name := model_name st;
               chat_turns := chat_turns st;
               conversation_history := conversation_history st;
               trace := trace st |}).

(** [with open(filename, "w", encoding='utf-8') as f: f.write(content)].
    Opening creates the file or empties an existing one; the content is on
    disk once the write and the close have gone through. *)
Definition write_text_file (svc : services) (filename content : string) : M unit :=
  match open_error svc filename with
  | Some e => raise e
  | None =>
      set_file filename "";;
      match write_error svc filename content with
      | Some e => raise e
      | None => set_file filename content
      end
  end.

(** ** The script *)

(** Truth value of [os.getenv]'s result: None and the empty string are
    false. *)
Definition truthy (v : option string) : bool :=
  match v with
  | None => false
  | Some EmptyString => false
  | Some _ => true
  end.

Definition configure_genai : M unit :=
  api_key <- getenv "GOOGLE_API_KEY";;
  if negb (truthy api_key) then
    print (Fore.RED +:+ "Error: GOOGLE_API_KEY not found in environment variables.");;
    print (Fore.YELLOW +:+ "Please set it in a .env file or export it.");;
    sys_exit 1
  else
    genai_configure (default "" api_key).

Module ProductInterviewAgent.

Definition default_model_name : string := "gemini-1.5-flash-latest".

(** [__init__]: a model handle, a chat session without history, and an
    empty conversation history. *)
Definition init (name : string) : M unit :=
  fun st =>
    (Ok tt, {| environ := environ st; stdin := stdin st; files := files st;
               genai_api_key := genai_api_key st; model_name := name;
               chat_turns := 0;
               conversation_history := [];
               trace := trace st |}).

Definition system_instruction : string :=
  "You are an expert Product Manager using the 'Jobs to be Done' (JTBD) framework and '5 Whys' technique. "
  +:+ "Your goal is to interview a user to uncover the underlying 'Job' they are hiring the product to do. "
  +:+ "You must ask deep, probing 'Why' questions to get to the root cause. "
  +:+ "Do not settle for superficial answers. "
  +:+ "Start by asking about the product idea or problem. "
  +:+ "Then, recursively ask 'Why' to understand the motivation, context, and desired outcome.".

Definition initial_question : string :=
  "To start, what is the product idea or the problem you are trying to solve?".

(** The prompt built at the top of each round. *)
Definition why_prompt (user_input : string) : string :=
  "The user just said: '" +:+ user_input +:+ "'. "
  +:+ "Previous conversation context is implied. "
  +:+ "Ask a specific 'Why' question to dig deeper into the user's motivation or the root problem. "
  +:+ "Use the '5 Whys' technique. "
  +:+ "Example: 'Why is that important to you?' or 'Why does this problem occur?' "
  +:+ "Ensure the question relates to the 'Job to be Done'.".

Definition exit_keywords : list string := ["exit"; "quit"; "done"].

(** [user_input.lower() in ['exit', 'quit', 'done']]. *)
Definition is_exit (user_input : string) : bool :=
  str_in (lower user_input) exit_keywords.

Definition you_prompt : string := Fore.YELLOW +:+ "You: " +:+ Style.RESET_ALL.

(** [for i in rng: ...] with the loop's body; [user_input] is the local
    variable the body reads and reassigns; [break] leaves the loop. *)
Fixpoint whys_loop (svc : services) (rng : list nat) (user_input : string) : M unit :=
  match rng with
  | [] => ret tt
  | i :: rng' =>
      response <- send_message svc (why_prompt user_input);;
      let question := strip response in
      print (Fore.BLUE +:+ "Agent (" +:+ str_of_nat (i + 1) +:+ "/5): "
             +:+ Style.RESET_ALL +:+ question);;
      history_append ("Agent: " +:+ question);;
      user_input' <- input you_prompt;;
      history_append ("User: " +:+ user_input');;
      if is_exit user_input' then
        print (Fore.MAGENTA +:+ "Ending interview early...")
      else
        whys_loop svc rng' user_input'
  end.

Definition start_interview (svc : services) : M unit :=
  print (Fore.CYAN +:+ nl +:+ "=== Gemini Product Manager Agent ===");;
  print (Fore.GREEN +:+ "Hello! I'm here to help you define your product requirements.");;
  print ("I'll ask you a few questions to understand the root problem better." +:+ nl);;
  history_append ("System: " +:+ system_instruction);;
  print (Fore.BLUE +:+ "Agent: " +:+ Style.RESET_ALL +:+ initial_question);;
  history_append ("Agent: " +:+ initial_question);;
  user_input <- input you_prompt;;
  history_append ("User: " +:+ user_input);;
  whys_loop svc (seq 0 5) user_input.


Definition prd_prompt (transcript : string) : string :=
  "Based on the following interview transcript, write a comprehensive "
  +:+ "Product Requirements Document (PRD) in Markdown format." +:+ nl +:+ nl
  +:+ "TRANSCRIPT:" +:+ nl
  +:+ transcript +:+ nl +:+ nl
  +:+ "REQUIREMENTS:" +:+ nl
  +:+ "1. Title & Overview" +:+ nl
  +:+ "2. Problem Statement (Root Cause Analysis)" +:+ nl
  +:+ "3. Goals & Success Metrics" +:+ nl
  +:+ "4. User Personas" +:+ nl
  +:+ "5. User Stories" +:+ nl
  +:+ "6. Functional Requirements" +:+ nl
  +:+ "7. Non-functional Requirements" +:+ nl
  +:+ "8. Output strictly in Markdown.".

Definition generate_prd (svc : services) : M string :=
  print (Fore.CYAN +:+ nl
         +:+ "Generating Product Requirements Document (PRD)... Please wait.");;
  fun st =>
    let transcript := join nl (conversation_history st) in
    generate_content svc (prd_prompt transcript) st.

Definition default_filename : string := "PRD.md".

Definition save_prd (svc : services) (content filename : string) : M unit :=
  try_except
    (write_text_file svc filename content;;
     print (Fore.GREEN +:+ nl +:+ "Success! PRD saved to " +:+ filename))
    (fun e =>
       match e with
       | Exception msg => Some (print (Fore.RED +:+ "Error saving file: " +:+ msg))
       | _ => None
       end).

End ProductInterviewAgent.

Import ProductInterviewAgent.

(** The body of the [try] in [main], and its two [except] clauses. *)
Definition main_body (svc : services) : M unit :=
  start_interview svc;;
  prd_content <- generate_prd svc;;
  save_prd svc prd_content default_filename.

Definition main_handlers (e : exn) : option (M unit) :=
  match e with
  | KeyboardInterrupt => Some (print (Fore.RED +:+ nl +:+ "Process interrupted."))
  | Exception msg => Some (print (Fore.RED +:+ nl +:+ "An error occurred: " +:+ msg))
  | SystemExit _ => None
  end.

Definition main (svc : services) : M unit :=
  configure_genai;;
  init default_model_name;;
  try_except (main_body svc) main_handlers.

(** Running the script: the exit status of the process and the final
    state.  A normal return of [main] gives status 0, [sys.exit(code)]
    gives [code], an escaping interrupt ends the process on the interrupt
    signal (status 130), any other escaping exception gives status 1. *)
Definition run_script (svc : services) (st : state) : Z * state :=
  match main svc st with
  | (Ok _, st') => (0%Z, st')
  | (Raise (SystemExit code), st') => (code, st')
  | (Raise KeyboardInterrupt, st') => (130%Z, st')
  | (Raise (Exception _), st') => (1%Z, st')
  end.

(** ** Observations on traces and histories *)

Definition is_send (ev : event) : bool :=
  match ev with SendMessage _ => true | _ => false end.

Definition is_generate (ev : event) : bool :=
  match ev with GenerateContent _ => true | _ => false end.

Definition is_answer (ev : event) : bool :=
  match ev with Input _ (Ok _) => true | _ => false end.

Fixpoint count (p : event -> bool) (tr : list event) : nat :=
  match tr with
  | [] => 0
  | ev :: tr' => (if p ev then 1 else 0) + count p tr'
  end.

(** [text] was printed somewhere in the trace. *)
Definition printed (text : string) (tr : list event) : bool :=
  existsb (fun ev => match ev with Print s => String.eqb s text | _ => false end) tr.

(** The events a run added: those of [st'] after the ones [st] had. *)
Definition events_since (st st' : state) : list event :=
  drop (length (trace st)) (trace st').

(** Rounds of the loop begun in a stretch of trace: each round opens with
    one call of [send_message]. *)
Definition rounds_started (tr : list event) : nat := count is_send tr.

(** Rounds of the loop completed in a stretch of trace of
    [start_interview]: a round is complete once its answer has been read;
    the first answer read is the one to the opening question. *)
Definition rounds_completed (tr : list event) : nat := count is_answer tr - 1.

(** An entry carries one of the three role labels. *)
Definition labelled (entry : string) : bool :=
  String.prefix "System: " entry
  || String.prefix "Agent: " entry
  || String.prefix "User: " entry.

(** The exit test as the specification words it: equal to one of the three
    keywords when letter case is ignored. *)
Definition eq_nocase (a b : string) : bool := String.eqb (lower a) (lower b).

Definition exit_word (answer : string) : bool :=
  eq_nocase answer "exit" || eq_nocase answer "quit" || eq_nocase answer "done".

(** The entries and events of [start_interview] up to the loop, when the
    first [input()] yields [got]. *)
Definition opening_entries (user_input : string) : list string :=
  [ "System: " +:+ system_instruction;
    "Agent: " +:+ initial_question;
    "User: " +:+ user_input ].

Definition opening_events (got : outcome string) : list event :=
  [ Print (Fore.CYAN +:+ nl +:+ "=== Gemini Product Manager Agent ===");
    Print (Fore.GREEN +:+ "Hello! I'm here to help you define your product requirements.");
    Print ("I'll ask you a few questions to understand the root problem better." +:+ nl);
    Print (Fore.BLUE +:+ "Agent: " +:+ Style.RESET_ALL +:+ initial_question);
    Input you_prompt got ].

(** The state in which the loop starts, after the answer [user_input] to
    the opening question has been read, [rest] being left on standard
    input. *)
Definition opened (st : state) (user_input : string) (rest : list stdin_item) : state :=
  {| environ := environ st; stdin := rest; files := files st;
     genai_api_key := genai_api_key st; model_name := model_name st;
     chat_turns := chat_turns st;
     conversation_history := conversation_history st ++ opening_entries user_input;
     trace := trace st ++ opening_events (Ok user_input) |}.

(** The state in which [main] enters its [try]: the key configured and a
    fresh agent constructed. *)
Definition agent_ready (st : state) (key : string) : state :=
  {| environ := environ st; stdin := stdin st; files := files st;
     genai_api_key := Some key; model_name := default_model_name;
     chat_turns := 0;
     conversation_history := [];
     trace := trace st |}.

(** The methods of the agent that can be called on a constructed agent,
    and the state a call leaves, whether it returns or raises. *)
Inductive method : Type :=
| StartInterview
| GeneratePrd
| SavePrd (content filename : string).

Definition call (svc : services) (m : method) (st : state) : state :=
  match m with
  | StartInterview => (start_interview svc st).2
  | GeneratePrd => (generate_prd svc st).2
  | SavePrd content filename => (save_prd svc content filename st).2
  end.

Definition calls (svc : services) (ms : list method) (st : state) : state :=
  fold_left (fun s m => call svc m s) ms st.


Definition generating_notice : string :=
  Fore.CYAN +:+ nl +:+ "Generating Product Requirements Document (PRD)... Please wait.".

Definition missing_key_reports : list event :=
  [ Print (Fore.RED +:+ "Error: GOOGLE_API_KEY not found in environment variables.");
    Print (Fore.YELLOW +:+ "Please set it in a .env file or export it.") ].

(** The messages of the four error reports. *)
Definition interrupted_report : string := Fore.RED +:+ nl +:+ "Process interrupted.".

Definition error_report (msg : string) : string :=
  Fore.RED +:+ nl +:+ "An error occurred: " +:+ msg.

Definition save_error_report (msg : string) : string :=
  Fore.RED +:+ "Error saving file: " +:+ msg.

Definition save_success_report (filename : string) : string :=
  Fore.GREEN +:+ nl +:+ "Success! PRD saved to " +:+ filename.

(** The notice of an interview ended by an exit keyword. *)
Definition early_exit_notice : string := Fore.MAGENTA +:+ "Ending interview early...".

(** The lines that calls of [input()] returned, in order. *)
Fixpoint answers (tr : list event) : list string :=
  match tr with
  | [] => []
  | Input _ (Ok text) :: tr' => text :: answers tr'
  | _ :: tr' => answers tr'
  end.

(** The prompts given to [chat.send_message], in order. *)
Fixpoint prompts_sent (tr : list event) : list string :=
  match tr with
  | [] => []
  | SendMessage prompt :: tr' => prompt :: prompts_sent tr'
  | _ :: tr' => prompts_sent tr'
  end.

(** The two entries that a question and its answer leave in the history. *)
Definition exchange (qa : string * string) : list string :=
  ["Agent: " +:+ qa.1; "User: " +:+ qa.2].

(** Equality of a typed text and a keyword written in small letters,
    letter case set aside: each typed character is the keyword's, or is the
    capital letter of it. *)
Definition is_upper (c : ascii) : bool :=
  let n := nat_of_ascii c in (65 <=? n)%nat && (n <=? 90)%nat.

Definition same_letter (typed kw : ascii) : bool :=
  Ascii.eqb typed kw
  || (is_upper typed && (nat_of_ascii typed + 32 =? nat_of_ascii kw)%nat).

Fixpoint matches_ignoring_case (typed kw : string) : bool :=
  match typed, kw with
  | EmptyString, EmptyString => true
  | String a typed', String b kw' =>
      same_letter a b && matches_ignoring_case typed' kw'
  | _, _ => false
  end.

Fixpoint no_capitals (s : string) : bool :=
  match s with
  | EmptyString => true
  | String c s' => negb (is_upper c) && no_capitals s'
  end.




(** A text begins with a whitespace character. *)
Definition starts_with_space (s : string) : bool := (0 <? space_width s)%nat.

(** A text is one whitespace character and nothing else. *)
Definition one_space (s : string) : bool :=
  (0 <? space_width s)%nat && (space_width s =? String.length s)%nat.

(** A text ends with a whitespace character. *)
Fixpoint ends_with_space (s : string) : bool :=
  match s with
  | EmptyString => false
  | String _ s' => one_space s || ends_with_space s'
  end.

(** A text neither begins nor ends with a whitespace character. *)
Definition trimmed (s : string) : bool :=
  negb (starts_with_space s) && negb (ends_with_space s).

(** ** Sample runs *)

Module Sample.

(** A service that asks the same question in every round. *)
Definition steady_question : string := "  Why is that important to you?  ".

(** A starting state: the credential set, the given lines on standard
    input, no files, nothing done yet. *)
Definition start_state (lines : list stdin_item) : state :=
  {| environ := {[ "GOOGLE_API_KEY" := "sample-key" ]};
     stdin := lines; files := ∅;
     genai_api_key := None; model_name := ""; chat_turns := 0;
     conversation_history := []; trace := [] |}.

(** Service and disk both in order; the document is [document]. *)
Definition healthy (document : string) : services :=
  {| chat_reply := fun _ _ => Ok steady_question;
     generate_reply := fun _ => Ok document;
     open_error := fun _ => None;
     write_error := fun _ _ => None |}.


(** The chat service fails at its call number [k] (from 0). *)
Definition chat_down_at (k : nat) : services :=
  {| chat_reply := fun j _ =>
       if (j =? k)%nat then Raise (Exception "503 service unavailable")
       else Ok steady_question;
     generate_reply := fun _ => Ok "# PRD";
     open_error := fun _ => None;
     write_error := fun _ _ => None |}.

(** A service whose questions come framed by whitespace of several
    kinds. *)
Definition padded_question : string :=
  nbsp +:+ " Why do you need it?" +:+ ideographic_space +:+ nl.

Definition padding : services :=
  {| chat_reply := fun _ _ => Ok padded_question;
     generate_reply := fun _ => Ok "# PRD";
     open_error := fun _ => None;
     write_error := fun _ _ => None |}.

(** The chat in order, the generation call failing on every prompt. *)
Definition generation_down : services :=
  {| chat_reply := fun _ _ => Ok steady_question;
     generate_reply := fun _ => Raise (Exception "500 internal error");
     open_error := fun _ => None;
     write_error := fun _ _ => None |}.

(** The service in order, the user pressing Ctrl-C while the file is
    being opened. *)
Definition interrupted_on_open : services :=
  {| chat_reply := fun _ _ => Ok steady_question;
     generate_reply := fun _ => Ok "# PRD";
     open_error := fun _ => Some KeyboardInterrupt;
     write_error := fun _ _ => None |}.

(** A starting state whose environment is [env] and whose disk already
    holds a document from an earlier run. *)
Definition rerun_state (env : gmap string string) (lines : list stdin_item) : state :=
  {| environ := env;
     stdin := lines; files := {[ "PRD.md" := "# Earlier PRD" ]};
     genai_api_key := None; model_name := ""; chat_turns := 0;
     conversation_history := []; trace := [] |}.

End Sample.

(** ** Proof tactics *)

Arguments whys_loop : simpl never.

(** Runs the primitive actions of a goal.  The reduction is by value, so
    that a state built by several actions is computed once and not once
    for each field that reads it. *)
Tactic Notation "run_prims" :=
  cbv beta iota zeta delta
    [bind ret raise try_except print emit history_append send_message input
     generate_content set_file getenv sys_exit genai_configure fst snd
     environ stdin files genai_api_key model_name chat_turns
     conversation_history trace].

Tactic Notation "run_prims" "in" hyp(H) :=
  cbv beta iota zeta delta
    [bind ret raise try_except print emit history_append send_message input
     generate_content set_file getenv sys_exit genai_configure fst snd
     environ stdin files genai_api_key model_name chat_turns
     conversation_history trace] in H.

Ltac tally := cbn [count is_send is_answer is_generate length Nat.add].

(** ** Basic facts *)

Lemma count_app p tr1 tr2 : count p (tr1 ++ tr2) = count p tr1 + count p tr2.
Proof.
  induction tr1 as [|ev tr1 IH]; simpl; [reflexivity|].
  rewrite IH. lia.
Qed.

Lemma events_since_app st st' t :
  trace st' = trace st ++ t -> events_since st st' = t.
Proof.
  intros E. unfold events_since. rewrite E. apply drop_app_length.
Qed.

Lemma prefix_append p s : String.prefix p (p +:+ s) = true.
Proof.
  induction p as [|c p IH]; simpl.
  - destruct s; reflexivity.
  - destruct (ascii_dec c c) as [_|N]; [exact IH | contradiction].
Qed.

Lemma labelled_System s : labelled ("System: " +:+ s) = true.
Proof. unfold labelled. rewrite prefix_append. reflexivity. Qed.

Lemma labelled_Agent s : labelled ("Agent: " +:+ s) = true.
Proof.
  unfold labelled. rewrite (prefix_append "Agent: " s).
  rewrite orb_true_r. reflexivity.
Qed.

Lemma labelled_User s : labelled ("User: " +:+ s) = true.
Proof.
  unfold labelled. rewrite (prefix_append "User: " s).
  rewrite orb_true_r. reflexivity.
Qed.

Lemma is_exit_exit_word answer : is_exit answer = exit_word answer.
Proof.
  unfold is_exit, exit_word, eq_nocase, str_in, exit_keywords. simpl.
  rewrite orb_false_r, orb_assoc. reflexivity.
Qed.

(** ** The text functions on sample inputs *)

Example lower_mixed_case : lower "QuIt now 42" = "quit now 42".
Proof. reflexivity. Qed.

Example strip_both_ends :
  strip ("  Why is that?  " +:+ nl) = "Why is that?".
Proof. reflexivity. Qed.

Example strip_keeps_inner_space : strip (nl +:+ "a  b") = "a  b".
Proof. reflexivity. Qed.

Example strip_blank : strip "   " = "".
Proof. reflexivity. Qed.

Example strip_no_break_space : strip (nbsp +:+ "Why?" +:+ nbsp) = "Why?".
Proof. reflexivity. Qed.

Example strip_mixed_whitespace :
  strip (ideographic_space +:+ " caf" +:+ e_acute +:+ nl +:+ nbsp)
  = "caf" +:+ e_acute.
Proof. reflexivity. Qed.

Example strip_keeps_zero_width_space :
  strip (zero_width_space +:+ "a ") = zero_width_space +:+ "a".
Proof. reflexivity. Qed.

Example join_three : join ", " ["a"; "b"; "c"] = "a, b, c".
Proof. reflexivity. Qed.

Example join_none : join nl [] = "".
Proof. reflexivity. Qed.

Example str_of_nat_five : str_of_nat (4 + 1) = "5".
Proof. reflexivity. Qed.

Example is_exit_any_case :
  is_exit "exit" = true /\ is_exit "QUIT" = true /\ is_exit "dOnE" = true.
Proof. repeat split. Qed.

Example is_exit_other_answers :
  is_exit "" = false /\ is_exit "done." = false /\ is_exit "I quit" = false.
Proof. repeat split. Qed.

(** ** The interview loop *)

(** One round, unfolded: the call, then the read, then the exit test. *)
Lemma whys_loop_cons svc i rng u st :
  whys_loop svc (i :: rng) u st =
  (response <- send_message svc (why_prompt u);;
   print (Fore.BLUE +:+ "Agent (" +:+ str_of_nat (i + 1) +:+ "/5): "
          +:+ Style.RESET_ALL +:+ strip response);;
   history_append ("Agent: " +:+ strip response);;
   user_input' <- input you_prompt;;
   history_append ("User: " +:+ user_input');;
   if is_exit user_input' then
     print (Fore.MAGENTA +:+ "Ending interview early...")
   else
     whys_loop svc rng user_input') st.
Proof. reflexivity. Qed.

(** Whatever its outcome, the loop only adds labelled entries at the end
    of the history and events at the end of the trace. *)
Lemma whys_loop_grows svc rng :
  forall u st r st',
  whys_loop svc rng u st = (r, st') ->
  exists h t,
    conversation_history st' = conversation_history st ++ h
    /\ Forall (fun entry => labelled entry = true) h
    /\ trace st' = trace st ++ t.
Proof.
  induction rng as [|i rng IH]; intros u st r st' Hrun.
  - injection Hrun as <- <-. exists [], []. rewrite !app_nil_r. auto.
  - rewrite whys_loop_cons in Hrun.
    destruct st as [env sin fls key name turns hist tr]. run_prims in Hrun.
    destruct (chat_reply svc turns (why_prompt u)) as [resp|e].
    2:{ injection Hrun as <- <-. exists [], [SendMessage (why_prompt u)].
        simpl. rewrite app_nil_r. auto. }
    destruct sin as [|[text|] rest]; run_prims in Hrun.
    + injection Hrun as <- <-. simpl. eexists [_], [_; _; _].
      rewrite <- !app_assoc. repeat split; auto using labelled_Agent.
    + destruct (is_exit text); run_prims in Hrun.
      * injection Hrun as <- <-. simpl. eexists [_; _], [_; _; _; _].
        rewrite <- !app_assoc.
        repeat split; auto using labelled_Agent, labelled_User.
      * apply IH in Hrun as (h & t & Hh & Hl & Ht).
        simpl in Hh, Ht. rewrite Hh, Ht. simpl.
        eexists (_ :: _ :: h), (_ :: _ :: _ :: t). rewrite <- !app_assoc.
        repeat split; auto using labelled_Agent, labelled_User.
    + injection Hrun as <- <-. simpl. eexists [_], [_; _; _].
      rewrite <- !app_assoc. repeat split; auto using labelled_Agent.
Qed.

(** When the loop returns, every round it began was completed, and each
    round left two entries in the history. *)
Lemma whys_loop_returns svc rng :
  forall u st st',
  whys_loop svc rng u st = (Ok tt, st') ->
  exists h t,
    conversation_history st' = conversation_history st ++ h
    /\ trace st' = trace st ++ t
    /\ length h = 2 * count is_send t
    /\ count is_answer t = count is_send t
    /\ count is_send t <= length rng
    /\ (rng <> [] -> 1 <= count is_send t).
Proof.
  induction rng as [|i rng IH]; intros u st st' Hrun.
  - injection Hrun as <-. exists [], []. rewrite !app_nil_r. simpl.
    repeat split; auto. intros N; contradiction.
  - rewrite whys_loop_cons in Hrun.
    destruct st as [env sin fls key name turns hist tr]. run_prims in Hrun.
    destruct (chat_reply svc turns (why_prompt u)) as [resp|e];
      [|discriminate].
    destruct sin as [|[text|] rest]; run_prims in Hrun; try discriminate.
    destruct (is_exit text); run_prims in Hrun.
    + injection Hrun as <-. simpl. eexists [_; _], [_; _; _; _].
      rewrite <- !app_assoc. repeat split; auto; tally; lia.
    + apply IH in Hrun as (h & t & Hh & Ht & Hlen & Hans & Hle & _).
      simpl in Hh, Ht. rewrite Hh, Ht. simpl.
      eexists (_ :: _ :: h), (_ :: _ :: _ :: t). rewrite <- !app_assoc.
      repeat split; auto; tally; lia.
Qed.

Lemma last_nonempty {A} (a : A) (l : list A) (d d' : A) :
  List.last (a :: l) d = List.last (a :: l) d'.
Proof.
  revert a. induction l as [|b l IH]; intros a; [reflexivity|].
  change (List.last (b :: l) d = List.last (b :: l) d'). apply IH.
Qed.

Lemma last_cons_default {A} (a : A) (l : list A) (d : A) :
  List.last (a :: l) d = List.last l a.
Proof.
  destruct l as [|b l]; [reflexivity|].
  change (List.last (b :: l) d = List.last (b :: l) a). apply last_nonempty.
Qed.

(** Rounds that meet an answering service and an answer that is no exit
    keyword: the loop goes through one round per such answer and stands at
    the next round, having read nothing beyond them. *)
Lemma whys_loop_rounds svc pre :
  forall rng u st tail,
  length pre <= length rng ->
  stdin st = map Line pre ++ tail ->
  Forall (fun a => is_exit a = false) pre ->
  (forall j p, j < length pre -> exists q, chat_reply svc (chat_turns st + j) p = Ok q) ->
  exists st1 h t,
    whys_loop svc rng u st
      = whys_loop svc (drop (length pre) rng) (List.last pre u) st1
    /\ stdin st1 = tail
    /\ chat_turns st1 = chat_turns st + length pre
    /\ conversation_history st1 = conversation_history st ++ h
    /\ length h = 2 * length pre
    /\ trace st1 = trace st ++ t
    /\ count is_send t = length pre
    /\ count is_answer t = length pre.
Proof.
  induction pre as [|a pre IH]; intros rng u st tail Hlen Hin Hne Hchat.
  - exists st, [], []. simpl in *. rewrite !app_nil_r, Nat.add_0_r.
    repeat split; auto.
  - destruct rng as [|i rng]; [simpl in Hlen; lia|].
    apply Forall_cons_iff in Hne as [Ha Hne].
    destruct (Hchat 0 (why_prompt u)) as [q Hq]; [simpl; lia|].
    rewrite Nat.add_0_r in Hq.
    destruct st as [env sin fls key name turns hist tr]. simpl in Hin, Hq, Hchat.
    subst sin.
    set (st2 := {| environ := env; stdin := map Line pre ++ tail;
                   files := fls; genai_api_key := key;
                   model_name := name; chat_turns := S turns;
                   conversation_history :=
                     (hist ++ ["Agent: " +:+ strip q]) ++ ["User: " +:+ a];
                   trace := ((tr ++ [SendMessage (why_prompt u)])
                     ++ [Print (Fore.BLUE +:+ "Agent (" +:+ str_of_nat (i + 1)
                                 +:+ "/5): " +:+ Style.RESET_ALL +:+ strip q)])
                     ++ [Input you_prompt (Ok a)] |}).
    assert (Hstep : whys_loop svc (i :: rng) u
                      {| environ := env; stdin := Line a :: map Line pre ++ tail;
                         files := fls; genai_api_key := key; model_name := name;
                         chat_turns := turns; conversation_history := hist;
                         trace := tr |}
                    = whys_loop svc rng a st2).
    { rewrite whys_loop_cons. run_prims. rewrite Hq. run_prims.
      rewrite Ha. reflexivity. }
    destruct (IH rng a st2 tail) as (st1 & h & t & Hrun & Hs & Hc & Hh & Hl & Ht & Hns & Hna).
    + simpl in Hlen. lia.
    + reflexivity.
    + exact Hne.
    + intros j p Hj. destruct (Hchat (S j) p) as [q' Hq']; [simpl; lia|].
      exists q'. simpl. rewrite <- Hq'. f_equal. lia.
    + exists st1, (("Agent: " +:+ strip q) :: ("User: " +:+ a) :: h),
        (SendMessage (why_prompt u)
         :: Print (Fore.BLUE +:+ "Agent (" +:+ str_of_nat (i + 1)
                   +:+ "/5): " +:+ Style.RESET_ALL +:+ strip q)
         :: Input you_prompt (Ok a) :: t).
      rewrite Hstep, Hrun, last_cons_default. simpl in Hc, Hh, Ht |- *.
      rewrite Hc, Hh, Ht, <- !app_assoc. simpl.
      repeat split; auto; tally; lia.
Qed.

(** A round whose answer is an exit keyword is the last one. *)
Lemma whys_loop_exit_round svc i rng u st x rest q :
  stdin st = Line x :: rest ->
  chat_reply svc (chat_turns st) (why_prompt u) = Ok q ->
  is_exit x = true ->
  exists st' p1 p2,
    whys_loop svc (i :: rng) u st = (Ok tt, st')
    /\ stdin st' = rest
    /\ conversation_history st'
       = conversation_history st ++ ["Agent: " +:+ strip q; "User: " +:+ x]
    /\ trace st'
       = trace st ++ [SendMessage (why_prompt u); Print p1;
                      Input you_prompt (Ok x); Print p2].
Proof.
  intros Hin Hq Hx. destruct st as [env sin fls key name turns hist tr].
  simpl in Hin, Hq. subst sin.
  rewrite whys_loop_cons. run_prims. rewrite Hq. run_prims. rewrite Hx. run_prims.
  eexists _, _, _. split; [reflexivity|]. simpl.
  rewrite <- !app_assoc. auto.
Qed.

(** A round whose call of the service fails ends the loop with that
    error, right after the call. *)
Lemma whys_loop_failed_round svc i rng u st e :
  chat_reply svc (chat_turns st) (why_prompt u) = Raise e ->
  exists st',
    whys_loop svc (i :: rng) u st = (Raise e, st')
    /\ stdin st' = stdin st
    /\ chat_turns st' = S (chat_turns st)
    /\ conversation_history st' = conversation_history st
    /\ trace st' = trace st ++ [SendMessage (why_prompt u)].
Proof.
  intros Hq. destruct st as [env sin fls key name turns hist tr].
  simpl in Hq. rewrite whys_loop_cons. run_prims. rewrite Hq.
  eexists. split; [reflexivity|]. simpl. auto.
Qed.

(** A loop with a round to run begins by calling the service about the
    answer it was given. *)
Lemma whys_loop_begins svc i rng u st r st' :
  whys_loop svc (i :: rng) u st = (r, st') ->
  exists h t,
    conversation_history st' = conversation_history st ++ h
    /\ trace st' = trace st ++ SendMessage (why_prompt u) :: t.
Proof.
  intros Hrun. rewrite whys_loop_cons in Hrun.
  destruct st as [env sin fls key name turns hist tr]. run_prims in Hrun.
  destruct (chat_reply svc turns (why_prompt u)) as [resp|e].
  2:{ injection Hrun as <- <-. exists [], []. simpl. rewrite app_nil_r. auto. }
  destruct sin as [|[text|] rest]; run_prims in Hrun.
  - injection Hrun as <- <-. simpl. eexists [_], [_; _].
    rewrite <- !app_assoc. auto.
  - destruct (is_exit text); run_prims in Hrun.
    + injection Hrun as <- <-. simpl. eexists [_; _], [_; _; _].
      rewrite <- !app_assoc. auto.
    + apply whys_loop_grows in Hrun as (h & t & Hh & _ & Ht).
      simpl in Hh, Ht. rewrite Hh, Ht. simpl.
      eexists (_ :: _ :: h), (_ :: _ :: t). rewrite <- !app_assoc. auto.
  - injection Hrun as <- <-. simpl. eexists [_], [_; _].
    rewrite <- !app_assoc. auto.
Qed.

(** The rounds left when fewer than five have gone through. *)
Lemma rounds_left k : k < 5 -> exists i rng, drop k (seq 0 5) = i :: rng.
Proof.
  intros Hk. destruct (drop k (seq 0 5)) as [|i rng] eqn:Hdrop; [|eauto].
  apply (f_equal length) in Hdrop. rewrite length_drop, length_seq in Hdrop.
  simpl in Hdrop. lia.
Qed.

(** ** The interview *)

Lemma start_interview_opened svc st user_input rest :
  stdin st = Line user_input :: rest ->
  start_interview svc st = whys_loop svc (seq 0 5) user_input (opened st user_input rest).
Proof.
  intros Hin. destruct st as [env sin fls key name turns hist tr].
  simpl in Hin. subst sin.
  unfold start_interview, opened, opening_entries, opening_events.
  run_prims. f_equal. f_equal. all: rewrite <- !app_assoc; reflexivity.
Qed.

(** Without a line to read, the interview stops at the opening question. *)
Lemma start_interview_unanswered svc st :
  (forall text rest, stdin st <> Line text :: rest) ->
  exists e st', start_interview svc st = (Raise e, st').
Proof.
  intros Hno. destruct st as [env sin fls key name turns hist tr].
  simpl in Hno. unfold start_interview. run_prims.
  destruct sin as [|[text|] rest]; run_prims; eauto.
  exfalso. eapply Hno. reflexivity.
Qed.

(** C1. On an agent whose history is empty, as its constructor leaves it,
    a run of [start_interview] that returns has completed [n] rounds of
    the loop, with [n] between 1 and 5 (so between 0 and 5), every round
    begun being completed, and leaves a history of [2 * n + 3] entries. *)
Theorem history_length_after_interview svc st st' :
  conversation_history st = [] ->
  start_interview svc st = (Ok tt, st') ->
  let n := rounds_completed (events_since st st') in
  rounds_started (events_since st st') = n
  /\ 1 <= n <= 5
  /\ length (conversation_history st') = 2 * n + 3.
Proof.
  intros Hempty Hrun.
  destruct (stdin st) as [|[u0|] rest] eqn:Hin.
  - destruct (start_interview_unanswered svc st) as (e & s & He).
    { rewrite Hin. discriminate. }
    rewrite He in Hrun. discriminate.
  - rewrite (start_interview_opened svc st u0 rest Hin) in Hrun.
    apply whys_loop_returns in Hrun as (h & t & Hh & Ht & Hlen & Hans & Hle & Hge).
    simpl in Hh, Ht. rewrite <- app_assoc in Ht.
    rewrite (events_since_app _ _ _ Ht).
    unfold rounds_completed, rounds_started. rewrite !count_app.
    unfold opening_events. tally. rewrite Hans.
    specialize (Hge ltac:(discriminate)). simpl in Hle.
    rewrite Hh, Hempty, !length_app, Hlen. simpl. lia.
  - destruct (start_interview_unanswered svc st) as (e & s & He).
    { rewrite Hin. discriminate. }
    rewrite He in Hrun. discriminate.
Qed.

Lemma history_length_after_interview_witness :
  let svc := Sample.healthy "# PRD" in
  let st := Sample.start_state [Line "a task tracker"; Line "to plan my week"; Line "Done"] in
  let st' := (start_interview svc st).2 in
  let n := rounds_completed (events_since st st') in
  conversation_history st = []
  /\ start_interview svc st = (Ok tt, st')
  /\ n = 2
  /\ rounds_started (events_since st st') = n
  /\ 1 <= n <= 5
  /\ length (conversation_history st') = 2 * n + 3.
Proof.
  intros svc st st' n.
  assert (Hrun : start_interview svc st = (Ok tt, st')) by (vm_compute; reflexivity).
  split; [reflexivity|]. split; [exact Hrun|]. split; [vm_compute; reflexivity|].
  exact (history_length_after_interview svc st st' eq_refl Hrun).
Defined.

(** C2. With a service that answers every call, and answers on standard
    input of which [pre] are no exit keywords: when [pre] holds five
    answers the loop runs exactly five rounds; when it holds fewer and the
    next answer [x] is "exit", "quit" or "done" in any letter case, the
    loop runs the round in which [x] is read and no round after it.  In
    both cases nothing beyond the last round's answer is read. *)
Theorem loop_runs_five_rounds_unless_exit svc st u0 pre tail :
  stdin st = Line u0 :: map Line pre ++ tail ->
  Forall (fun a => exit_word a = false) pre ->
  (forall k p, exists q, chat_reply svc k p = Ok q) ->
  (length pre = 5 ->
   exists st',
     start_interview svc st = (Ok tt, st')
     /\ rounds_started (events_since st st') = 5
     /\ rounds_completed (events_since st st') = 5
     /\ stdin st' = tail)
  /\ (forall x tail',
      length pre < 5 -> tail = Line x :: tail' -> exit_word x = true ->
      exists st',
        start_interview svc st = (Ok tt, st')
        /\ rounds_started (events_since st st') = length pre + 1
        /\ rounds_completed (events_since st st') = length pre + 1
        /\ stdin st' = tail').
Proof.
  intros Hin Hne Hchat.
  assert (Hne' : Forall (fun a => is_exit a = false) pre).
  { eapply Forall_impl; [exact Hne|]. intros a Ha.
    rewrite is_exit_exit_word. exact Ha. }
  rewrite (start_interview_opened svc st u0 _ Hin).
  split.
  - intros H5.
    destruct (whys_loop_rounds svc pre (seq 0 5) u0 (opened st u0 (map Line pre ++ tail)) tail)
      as (st1 & h & t & Hrun & Hs & _ & _ & _ & Ht & Hns & Hna); auto.
    { rewrite length_seq. lia. }
    rewrite Hrun, H5. exists st1. simpl in Ht. rewrite <- app_assoc in Ht.
    rewrite (events_since_app _ _ _ Ht). unfold rounds_completed, rounds_started.
    rewrite !count_app, Hns, Hna, H5. unfold opening_events. tally. auto.
  - intros x tail' Hlt -> Hx. rewrite <- is_exit_exit_word in Hx.
    destruct (whys_loop_rounds svc pre (seq 0 5) u0
                (opened st u0 (map Line pre ++ Line x :: tail')) (Line x :: tail'))
      as (st1 & h & t & Hrun & Hs & _ & _ & _ & Ht & Hns & Hna); auto.
    { rewrite length_seq. lia. }
    rewrite Hrun. destruct (rounds_left (length pre) Hlt) as (i & rng & ->).
    destruct (Hchat (chat_turns st1) (why_prompt (List.last pre u0))) as [q Hq].
    destruct (whys_loop_exit_round svc i rng _ st1 x tail' q Hs Hq Hx)
      as (st' & p1 & p2 & Hlast & Hs' & _ & Ht').
    exists st'. split; [exact Hlast|].
    simpl in Ht. rewrite Ht, <- !app_assoc in Ht'.
    rewrite (events_since_app _ _ _ Ht'). unfold rounds_completed, rounds_started.
    rewrite !count_app, Hns, Hna. unfold opening_events. tally.
    repeat split; auto; lia.
Qed.

Lemma loop_runs_five_rounds_unless_exit_witness :
  let svc := Sample.healthy "# PRD" in
  let early := Sample.start_state
    [Line "a task tracker"; Line "to plan my week"; Line "I forget things";
     Line "QUIT"; Line "never read"] in
  let full := Sample.start_state
    [Line "a task tracker"; Line "one"; Line "two"; Line "three"; Line "four";
     Line "five"; Line "never read"] in
  (exists st',
     start_interview svc early = (Ok tt, st')
     /\ rounds_started (events_since early st') = 3
     /\ rounds_completed (events_since early st') = 3
     /\ stdin st' = [Line "never read"])
  /\ (exists st',
       start_interview svc full = (Ok tt, st')
       /\ rounds_started (events_since full st') = 5
       /\ rounds_completed (events_since full st') = 5
       /\ stdin st' = [Line "never read"]).
Proof.
  intros svc early full.
  assert (Hchat : forall k p, exists q, chat_reply svc k p = Ok q).
  { intros k p. exists Sample.steady_question. reflexivity. }
  split.
  - refine (proj2 (loop_runs_five_rounds_unless_exit svc early "a task tracker"
              ["to plan my week"; "I forget things"]
              [Line "QUIT"; Line "never read"] eq_refl _ Hchat)
            "QUIT" [Line "never read"] _ eq_refl eq_refl).
    + repeat constructor.
    + simpl. lia.
  - refine (proj1 (loop_runs_five_rounds_unless_exit svc full "a task tracker"
              ["one"; "two"; "three"; "four"; "five"]
              [Line "never read"] eq_refl _ Hchat) eq_refl).
    repeat constructor.
Defined.

(** C7. When the call of [send_message] of some round fails with [e],
    after [length pre] rounds that went through, [start_interview] raises
    [e] to its caller.  The failed call was made once and is the last
    thing the interview did: no call of the service follows it, the round
    is not completed, no further round begins and no further answer is
    read. *)
Theorem failed_generation_call_propagates svc st u0 pre tail e :
  stdin st = Line u0 :: map Line pre ++ tail ->
  Forall (fun a => is_exit a = false) pre ->
  length pre < 5 ->
  (forall j p, j < length pre -> exists q, chat_reply svc (chat_turns st + j) p = Ok q) ->
  chat_reply svc (chat_turns st + length pre) (why_prompt (List.last pre u0)) = Raise e ->
  exists st',
    start_interview svc st = (Raise e, st')
    /\ rounds_started (events_since st st') = length pre + 1
    /\ rounds_completed (events_since st st') = length pre
    /\ chat_turns st' = chat_turns st + length pre + 1
    /\ last (trace st') = Some (SendMessage (why_prompt (List.last pre u0)))
    /\ stdin st' = tail.
Proof.
  intros Hin Hne Hlt Hchat Hfail.
  rewrite (start_interview_opened svc st u0 _ Hin).
  destruct (whys_loop_rounds svc pre (seq 0 5) u0 (opened st u0 (map Line pre ++ tail)) tail)
    as (st1 & h & t & Hrun & Hs & Hc & _ & _ & Ht & Hns & Hna); auto.
  { rewrite length_seq. lia. }
  rewrite Hrun. destruct (rounds_left (length pre) Hlt) as (i & rng & ->).
  simpl in Hc. rewrite <- Hc in Hfail.
  destruct (whys_loop_failed_round svc i rng _ st1 e Hfail)
    as (st' & Hlast & Hs' & Hc' & _ & Ht').
  exists st'. split; [exact Hlast|].
  simpl in Ht. rewrite Ht, <- !app_assoc in Ht'.
  rewrite (events_since_app _ _ _ Ht'). unfold rounds_completed, rounds_started.
  rewrite !count_app, Hns, Hna. unfold opening_events. tally.
  repeat split; try lia; try congruence.
  rewrite Ht', !app_assoc. apply last_snoc.
Qed.

Lemma failed_generation_call_propagates_witness :
  let svc := Sample.chat_down_at 1 in
  let st := Sample.start_state
    [Line "a task tracker"; Line "to plan my week"; Line "never read"] in
  exists st',
    start_interview svc st = (Raise (Exception "503 service unavailable"), st')
    /\ rounds_started (events_since st st') = 2
    /\ rounds_completed (events_since st st') = 1
    /\ chat_turns st' = 2
    /\ last (trace st') = Some (SendMessage (why_prompt "to plan my week"))
    /\ stdin st' = [Line "never read"].
Proof.
  intros svc st.
  refine (failed_generation_call_propagates svc st "a task tracker"
            ["to plan my week"] [Line "never read"]
            (Exception "503 service unavailable") eq_refl _ _ _ eq_refl).
  - repeat constructor.
  - simpl. lia.
  - intros j p Hj. exists Sample.steady_question.
    simpl in Hj. assert (j = 0) as -> by lia. reflexivity.
Defined.

(** ** The exit test *)

Lemma lower_append a b : lower (a +:+ b) = lower a +:+ lower b.
Proof. induction a as [|c a IH]; simpl; [reflexivity|]. rewrite IH. reflexivity. Qed.

Lemma lower_char_space c : is_space c = true -> lower_char c = c.
Proof.
  destruct c as [[] [] [] [] [] [] [] []]; vm_compute; intros H;
    first [reflexivity | discriminate H].
Qed.

Lemma space_not_letter c :
  is_space c = true ->
  c <> "e"%char /\ c <> "q"%char /\ c <> "d"%char /\ c <> "t"%char.
Proof.
  destruct c as [[] [] [] [] [] [] [] []]; vm_compute; intros H;
    first [discriminate H | repeat split; discriminate].
Qed.

Lemma is_exit_iff user_input :
  is_exit user_input = true <-> In (lower user_input) exit_keywords.
Proof.
  unfold is_exit, str_in. rewrite existsb_exists. split.
  - intros (kw & Hin & Heq). apply String.eqb_eq in Heq. subst kw. exact Hin.
  - intros Hin. exists (lower user_input). split; [exact Hin|]. apply String.eqb_refl.
Qed.

Lemma is_exit_leading_space c s : is_space c = true -> is_exit (String c s) = false.
Proof.
  intros Hc. apply not_true_iff_false. rewrite is_exit_iff. simpl.
  rewrite (lower_char_space c Hc).
  destruct (space_not_letter c Hc) as (He & Hq & Hd & _).
  intros [H|[H|[H|[]]]]; injection H as H _; congruence.
Qed.

Lemma is_exit_trailing_space c s :
  is_space c = true -> is_exit (s +:+ String c EmptyString) = false.
Proof.
  intros Hc. apply not_true_iff_false. rewrite is_exit_iff, lower_append. simpl.
  rewrite (lower_char_space c Hc).
  destruct (space_not_letter c Hc) as (He & _ & _ & Ht).
  destruct (lower s) as [|c1 [|c2 [|c3 [|c4 [|c5 r]]]]]; simpl;
    intros [H|[H|[H|[]]]]; try discriminate H;
    injection H; intros; congruence.
Qed.

(** A typed character lowers to a character that is no capital exactly
    when it is that character or its capital. *)
Lemma lower_char_same_letter a b :
  is_upper b = false -> (lower_char a = b <-> same_letter a b = true).
Proof.
  unfold lower_char, same_letter, is_upper. intros Hb.
  destruct ((65 <=? nat_of_ascii a)%nat && (nat_of_ascii a <=? 90)%nat) eqn:Ha.
  - apply andb_true_iff in Ha as [Ha1 Ha2].
    apply Nat.leb_le in Ha1. apply Nat.leb_le in Ha2.
    rewrite orb_true_iff, andb_true_l, Nat.eqb_eq, Ascii.eqb_eq. split.
    + intros <-. right. rewrite nat_ascii_embedding by lia. reflexivity.
    + intros [<-|Hsum].
      * exfalso. apply andb_false_iff in Hb.
        rewrite !Nat.leb_gt in Hb. lia.
      * rewrite Hsum. apply ascii_nat_embedding.
  - rewrite andb_false_l, orb_false_r, Ascii.eqb_eq. reflexivity.
Qed.

Lemma lower_matches typed :
  forall kw,
  no_capitals kw = true ->
  (lower typed = kw <-> matches_ignoring_case typed kw = true).
Proof.
  induction typed as [|a typed IH]; intros [|b kw] Hkw; simpl;
    try (split; intros; discriminate); [tauto|].
  simpl in Hkw. apply andb_true_iff in Hkw as [Hb Hkw].
  apply negb_true_iff in Hb.
  rewrite andb_true_iff, <- (IH kw Hkw), <- (lower_char_same_letter a b Hb).
  split; [intros [= -> ->]; auto | intros [-> ->]; reflexivity].
Qed.

(** The exit test holds exactly of the three keywords in any letter
    case. *)
Lemma is_exit_ignores_case x :
  is_exit x = true
  <-> matches_ignoring_case x "exit" || matches_ignoring_case x "quit"
      || matches_ignoring_case x "done" = true.
Proof.
  rewrite is_exit_iff, !orb_true_iff.
  rewrite <- (lower_matches x "exit" eq_refl), <- (lower_matches x "quit" eq_refl),
    <- (lower_matches x "done" eq_refl).
  unfold exit_keywords. simpl. intuition congruence.
Qed.

(** The rounds of an interview whose service answers every call, by the
    answers given inside the loop; the answer to the opening question has
    no part in it. *)
Lemma start_interview_rounds svc st u0 pre tail :
  stdin st = Line u0 :: map Line pre ++ tail ->
  Forall (fun a => is_exit a = false) pre ->
  (forall k p, exists q, chat_reply svc k p = Ok q) ->
  (length pre = 5 ->
   exists st',
     start_interview svc st = (Ok tt, st')
     /\ rounds_started (events_since st st') = 5
     /\ rounds_completed (events_since st st') = 5
     /\ stdin st' = tail)
  /\ (forall x tail',
      length pre < 5 -> tail = Line x :: tail' -> is_exit x = true ->
      exists st',
        start_interview svc st = (Ok tt, st')
        /\ rounds_started (events_since st st') = length pre + 1
        /\ rounds_completed (events_since st st') = length pre + 1
        /\ stdin st' = tail').
Proof.
  intros Hin Hne Hchat.
  rewrite (start_interview_opened svc st u0 _ Hin).
  split.
  - intros H5.
    destruct (whys_loop_rounds svc pre (seq 0 5) u0 (opened st u0 (map Line pre ++ tail)) tail)
      as (st1 & h & t & Hrun & Hs & _ & _ & _ & Ht & Hns & Hna); auto.
    { rewrite length_seq. lia. }
    rewrite Hrun, H5. exists st1. simpl in Ht. rewrite <- app_assoc in Ht.
    rewrite (events_since_app _ _ _ Ht). unfold rounds_completed, rounds_started.
    rewrite !count_app, Hns, Hna, H5. unfold opening_events. tally. auto.
  - intros x tail' Hlt -> Hx.
    destruct (whys_loop_rounds svc pre (seq 0 5) u0
                (opened st u0 (map Line pre ++ Line x :: tail')) (Line x :: tail'))
      as (st1 & h & t & Hrun & Hs & _ & _ & _ & Ht & Hns & Hna); auto.
    { rewrite length_seq. lia. }
    rewrite Hrun. destruct (rounds_left (length pre) Hlt) as (i & rng & ->).
    destruct (Hchat (chat_turns st1) (why_prompt (List.last pre u0))) as [q Hq].
    destruct (whys_loop_exit_round svc i rng _ st1 x tail' q Hs Hq Hx)
      as (st' & p1 & p2 & Hlast & Hs' & _ & Ht').
    exists st'. split; [exact Hlast|].
    simpl in Ht. rewrite Ht, <- !app_assoc in Ht'.
    rewrite (events_since_app _ _ _ Ht'). unfold rounds_completed, rounds_started.
    rewrite !count_app, Hns, Hna. unfold opening_events. tally.
    repeat split; auto; lia.
Qed.

(** C10. Whatever the answer [u0] to the opening question, an exit keyword
    included:
    - it is recorded as the third entry of the history and the first
      round of the loop begins with a call of the service about it;
    - the interview goes on by the answers given inside the loop alone:
      with a service that answers, five answers that are no exit keywords
      give five rounds, and fewer of them followed by an exit keyword give
      the rounds up to the one that read the keyword.
    The exit test holds exactly of the inputs whose lowercased text is one
    of the three keywords, that is of "exit", "quit" and "done" in any
    letter case and of nothing else; an input with a whitespace character
    before or after the keyword does not pass it. *)
Theorem exit_keyword_before_loop_is_an_answer svc st u0 rest :
  stdin st = Line u0 :: rest ->
  (exists h t,
     conversation_history (start_interview svc st).2
       = conversation_history st
           ++ ["System: " +:+ system_instruction;
               "Agent: " +:+ initial_question;
               "User: " +:+ u0] ++ h
     /\ trace (start_interview svc st).2
        = trace st ++ opening_events (Ok u0) ++ SendMessage (why_prompt u0) :: t)
  /\ (forall pre tail,
      rest = map Line pre ++ tail ->
      Forall (fun a => is_exit a = false) pre ->
      (forall k p, exists q, chat_reply svc k p = Ok q) ->
      (length pre = 5 ->
       exists st',
         start_interview svc st = (Ok tt, st')
         /\ rounds_started (events_since st st') = 5
         /\ rounds_completed (events_since st st') = 5
         /\ stdin st' = tail)
      /\ (forall x tail',
          length pre < 5 -> tail = Line x :: tail' -> is_exit x = true ->
          exists st',
            start_interview svc st = (Ok tt, st')
            /\ rounds_started (events_since st st') = length pre + 1
            /\ rounds_completed (events_since st st') = length pre + 1
            /\ stdin st' = tail'))
  /\ (forall x, is_exit x = true <-> In (lower x) ["exit"; "quit"; "done"])
  /\ (forall x,
      is_exit x = true
      <-> matches_ignoring_case x "exit" || matches_ignoring_case x "quit"
          || matches_ignoring_case x "done" = true)
  /\ (forall c x, is_space c = true ->
        is_exit (String c x) = false /\ is_exit (x +:+ String c EmptyString) = false).
Proof.
  intros Hin. split; [|split; [|split; [|split]]].
  - rewrite (start_interview_opened svc st u0 rest Hin).
    destruct (whys_loop svc (seq 0 5) u0 (opened st u0 rest)) as [r st'] eqn:Hrun.
    apply whys_loop_begins in Hrun as (h & t & Hh & Ht).
    exists h, t. simpl in Hh, Ht |- *. rewrite Hh, Ht, <- !app_assoc. auto.
  - intros pre tail Hrest Hne Hchat. subst rest.
    exact (start_interview_rounds svc st u0 pre tail Hin Hne Hchat).
  - exact is_exit_iff.
  - exact is_exit_ignores_case.
  - intros c x Hc. split;
      [apply is_exit_leading_space | apply is_exit_trailing_space]; exact Hc.
Qed.

Lemma exit_keyword_before_loop_is_an_answer_witness :
  let svc := Sample.healthy "# PRD" in
  let st := Sample.start_state
    [Line "EXIT"; Line "because"; Line "Quit"; Line "never read"] in
  is_exit "EXIT" = true
  /\ (exists h t,
        conversation_history (start_interview svc st).2
          = ["System: " +:+ system_instruction;
             "Agent: " +:+ initial_question;
             "User: EXIT"] ++ h
        /\ trace (start_interview svc st).2
           = opening_events (Ok "EXIT") ++ SendMessage (why_prompt "EXIT") :: t)
  /\ (exists st',
        start_interview svc st = (Ok tt, st')
        /\ rounds_started (events_since st st') = 2
        /\ rounds_completed (events_since st st') = 2
        /\ stdin st' = [Line "never read"])
  /\ is_exit "Quit" = true
  /\ is_exit "quits" = false
  /\ is_exit " exit" = false
  /\ is_exit "exit " = false.
Proof.
  intros svc st.
  destruct (exit_keyword_before_loop_is_an_answer svc st "EXIT"
              [Line "because"; Line "Quit"; Line "never read"] eq_refl)
    as (Hrun & Hrounds & _ & Hcase & Hsp).
  split; [apply Hcase; reflexivity|].
  split; [exact Hrun|].
  split.
  { refine (proj2 (Hrounds ["because"] [Line "Quit"; Line "never read"] eq_refl _ _)
              "Quit" [Line "never read"] _ eq_refl _).
    - repeat constructor.
    - intros k p. exists Sample.steady_question. reflexivity.
    - simpl. lia.
    - apply Hcase. reflexivity. }
  split; [apply Hcase; reflexivity|].
  split.
  { destruct (is_exit "quits") eqn:Hq; [|reflexivity].
    apply Hcase in Hq. discriminate Hq. }
  exact (Hsp " "%char "exit" eq_refl).
Defined.

(** ** The document and the file *)


(** What [save_prd] does, by what the disk answers. *)
Lemma save_prd_outcome svc content filename st :
  let r := save_prd svc content filename st in
  conversation_history r.2 = conversation_history st
  /\ stdin r.2 = stdin st
  /\ chat_turns r.2 = chat_turns st
  /\ (forall f, f <> filename -> files r.2 !! f = files st !! f)
  /\ match open_error svc filename with
     | Some (Exception msg) =>
         r.1 = Ok tt /\ files r.2 = files st
         /\ trace r.2 = trace st ++ [Print (save_error_report msg)]
     | Some e =>
         r.1 = Raise e /\ files r.2 = files st /\ trace r.2 = trace st
     | None =>
         match write_error svc filename content with
         | Some (Exception msg) =>
             r.1 = Ok tt /\ files r.2 !! filename = Some ""
             /\ trace r.2 = trace st ++ [Print (save_error_report msg)]
         | Some e =>
             r.1 = Raise e /\ files r.2 !! filename = Some ""
             /\ trace r.2 = trace st
         | None =>
             r.1 = Ok tt /\ files r.2 !! filename = Some content
             /\ trace r.2 = trace st ++ [Print (save_success_report filename)]
         end
     end.
Proof.
  unfold save_prd, try_except, write_text_file.
  destruct (open_error svc filename) as [[|code|msg]|]; run_prims;
    try (repeat split; auto; fail).
  destruct (write_error svc filename content) as [[|code|msg]|]; run_prims;
    repeat split; auto;
    try (intros f Hf; rewrite ?lookup_insert_ne by congruence; reflexivity);
    try apply lookup_insert_eq.
Qed.

(** C6. [save_prd], called as [main] calls it, on the file PRD.md: when
    the disk raises nothing the file holds the content as given, whatever
    it held before, and success is reported; when opening or writing fails
    with an error [e] of class Exception, the call reports
    "Error saving file: e" and returns normally.  In every case the
    history, the pending input and the other files are left as they
    were. *)
Theorem save_prd_verbatim_nonfatal svc content st :
  let r := save_prd svc content default_filename st in
  conversation_history r.2 = conversation_history st
  /\ stdin r.2 = stdin st
  /\ (forall f, f <> "PRD.md" -> files r.2 !! f = files st !! f)
  /\ match open_error svc "PRD.md", write_error svc "PRD.md" content with
     | None, None =>
         r.1 = Ok tt
         /\ files r.2 !! "PRD.md" = Some content
         /\ trace r.2 = trace st ++ [Print (save_success_report "PRD.md")]
     | Some (Exception msg), _ =>
         r.1 = Ok tt
         /\ files r.2 = files st
         /\ trace r.2 = trace st ++ [Print (Fore.RED +:+ "Error saving file: " +:+ msg)]
     | None, Some (Exception msg) =>
         r.1 = Ok tt
         /\ trace r.2 = trace st ++ [Print (Fore.RED +:+ "Error saving file: " +:+ msg)]
     | Some e, _ | None, Some e => r.1 = Raise e
     end.
Proof.
  destruct (save_prd_outcome svc content default_filename st)
    as (Hh & Hs & _ & Hf & Hcase).
  change default_filename with "PRD.md" in *.
  repeat split; auto.
  destruct (open_error svc "PRD.md") as [[|code|msg]|].
  - destruct (write_error svc "PRD.md" content) as [[]|]; apply Hcase.
  - destruct (write_error svc "PRD.md" content) as [[]|]; apply Hcase.
  - destruct (write_error svc "PRD.md" content) as [[]|]; apply Hcase.
  - destruct (write_error svc "PRD.md" content) as [[|code|msg]|];
      destruct Hcase as (? & ? & ?); auto.
Qed.

(** ** The history *)

Lemma start_interview_grows svc st :
  exists h,
    conversation_history (start_interview svc st).2 = conversation_history st ++ h
    /\ Forall (fun entry => labelled entry = true) h.
Proof.
  destruct (stdin st) as [|[u0|] rest] eqn:Hin.
  - destruct st as [env sin fls key name turns hist tr]. simpl in Hin. subst sin.
    unfold start_interview. run_prims. eexists [_; _]. rewrite <- !app_assoc.
    split; [reflexivity|]. auto using labelled_System, labelled_Agent.
  - rewrite (start_interview_opened svc st u0 rest Hin).
    destruct (whys_loop svc (seq 0 5) u0 (opened st u0 rest)) as [r st'] eqn:Hrun.
    apply whys_loop_grows in Hrun as (h & t & Hh & Hl & _).
    simpl in Hh |- *. rewrite Hh. exists (opening_entries u0 ++ h).
    rewrite app_assoc. split; [reflexivity|]. apply Forall_app. split; [|exact Hl].
    unfold opening_entries.
    auto using labelled_System, labelled_Agent, labelled_User.
  - destruct st as [env sin fls key name turns hist tr]. simpl in Hin. subst sin.
    unfold start_interview. run_prims. eexists [_; _]. rewrite <- !app_assoc.
    split; [reflexivity|]. auto using labelled_System, labelled_Agent.
Qed.

Lemma call_grows svc m st :
  exists h,
    conversation_history (call svc m st) = conversation_history st ++ h
    /\ Forall (fun entry => labelled entry = true) h.
Proof.
  destruct m as [| |content filename]; unfold call.
  - apply start_interview_grows.
  - exists []. rewrite app_nil_r. split; [reflexivity|constructor].
  - exists []. rewrite app_nil_r. split; [|constructor].
    apply (save_prd_outcome svc content filename st).
Qed.

(** C8. Through any sequence of calls of the agent's methods, returning
    or raising, the history a call finds is kept entry for entry at the
    front of the history it leaves, and every entry that was added starts
    with "System: ", "Agent: " or "User: ". *)
Theorem history_append_only_labelled svc ms st :
  exists added,
    conversation_history (calls svc ms st) = conversation_history st ++ added
    /\ Forall (fun entry => labelled entry = true) added.
Proof.
  unfold calls. revert st. induction ms as [|m ms IH]; intros st; simpl.
  - exists []. rewrite app_nil_r. split; [reflexivity|constructor].
  - destruct (call_grows svc m st) as (h1 & Hh1 & Hl1).
    destruct (IH (call svc m st)) as (h2 & Hh2 & Hl2).
    exists (h1 ++ h2). rewrite Hh2, Hh1, app_assoc.
    split; [reflexivity|]. apply Forall_app. auto.
Qed.

(** ** The whole script *)

Lemma main_with_key svc st key :
  environ st !! "GOOGLE_API_KEY" = Some key ->
  key <> EmptyString ->
  main svc st = try_except (main_body svc) main_handlers (agent_ready st key).
Proof.
  intros Hkey Hne. destruct st as [env sin fls k name turns hist tr].
  simpl in Hkey. unfold main, configure_genai, init, agent_ready. run_prims.
  rewrite Hkey. destruct key as [|c key]; [contradiction|].
  cbn [truthy negb default]. reflexivity.
Qed.

(** C3. When GOOGLE_API_KEY is not in the environment, the script prints
    its two diagnostic lines and the process exits with status 1; it did
    nothing else: no call of the chat session, no generation call. *)
Theorem missing_credential_exits_before_any_call svc st :
  environ st !! "GOOGLE_API_KEY" = None ->
  (run_script svc st).1 = 1%Z
  /\ (run_script svc st).1 <> 0%Z
  /\ events_since st (run_script svc st).2 = missing_key_reports
  /\ count is_send (events_since st (run_script svc st).2) = 0
  /\ count is_generate (events_since st (run_script svc st).2) = 0
  /\ chat_turns (run_script svc st).2 = chat_turns st.
Proof.
  intros Hkey. destruct st as [env sin fls k name turns hist tr]. simpl in Hkey.
  assert (Hrun : exists st',
            run_script svc {| environ := env; stdin := sin; files := fls;
                              genai_api_key := k; model_name := name;
                              chat_turns := turns; conversation_history := hist;
                              trace := tr |} = (1%Z, st')
            /\ trace st' = tr ++ missing_key_reports
            /\ chat_turns st' = turns).
  { unfold run_script, main, configure_genai. run_prims. rewrite Hkey.
    cbn [truthy negb]. run_prims. eexists. split; [reflexivity|].
    simpl. rewrite <- app_assoc. auto. }
  destruct Hrun as (st' & -> & Ht & Hc). simpl.
  match goal with |- context [events_since ?s st'] =>
    rewrite (events_since_app s st' missing_key_reports Ht) end.
  repeat split; auto.
Qed.

Lemma missing_credential_exits_before_any_call_witness :
  let svc := Sample.healthy "# PRD" in
  let st := {| environ := ∅; stdin := [Line "a task tracker"]; files := ∅;
               genai_api_key := None; model_name := ""; chat_turns := 0;
               conversation_history := []; trace := [] |} in
  (run_script svc st).1 = 1%Z
  /\ (run_script svc st).1 <> 0%Z
  /\ events_since st (run_script svc st).2 = missing_key_reports
  /\ count is_send (events_since st (run_script svc st).2) = 0
  /\ count is_generate (events_since st (run_script svc st).2) = 0
  /\ chat_turns (run_script svc st).2 = chat_turns st.
Proof.
  intros svc st. apply missing_credential_exits_before_any_call. reflexivity.
Defined.

(** What [generate_prd] does: one call, with the prompt built from the
    history, and its answer handed back. *)
Lemma generate_prd_run svc st :
  exists st',
    generate_prd svc st
      = (generate_reply svc (prd_prompt (join nl (conversation_history st))), st')
    /\ trace st'
       = trace st ++ [Print generating_notice;
                      GenerateContent (prd_prompt (join nl (conversation_history st)))]
    /\ conversation_history st' = conversation_history st
    /\ files st' = files st.
Proof.
  destruct st as [env sin fls key name turns hist tr].
  unfold generate_prd. run_prims. eexists. split; [reflexivity|].
  simpl. rewrite <- app_assoc. auto.
Qed.

(** The body of [main]'s [try], step by step. *)
Lemma main_body_steps svc st r st' :
  main_body svc st = (r, st') ->
  (exists e, r = Raise e /\ start_interview svc st = (Raise e, st'))
  \/ (exists s1, start_interview svc st = (Ok tt, s1)
      /\ ((exists e, r = Raise e /\ generate_prd svc s1 = (Raise e, st'))
          \/ (exists text s2, generate_prd svc s1 = (Ok text, s2)
              /\ save_prd svc text default_filename s2 = (r, st')))).
Proof.
  unfold main_body, bind. intros Hrun.
  destruct (start_interview svc st) as [[[]|e] s1].
  - right. exists s1. split; [reflexivity|].
    destruct (generate_prd svc s1) as [[text|e] s2].
    + right. exists text, s2. auto.
    + left. exists e. injection Hrun as <- <-. auto.
  - left. exists e. injection Hrun as <- <-. auto.
Qed.

(** C9, as the code has it.  After a run in which the credential is set,
    the interview and the generation go through and the disk raises
    nothing, the script ends with status 0 and PRD.md holds exactly the
    text [text] that the generation call returned; the file is not empty
    when [text] is not. *)
Theorem saved_document_is_the_reply svc st key st' :
  environ st !! "GOOGLE_API_KEY" = Some key ->
  key <> EmptyString ->
  main_body svc (agent_ready st key) = (Ok tt, st') ->
  open_error svc default_filename = None ->
  (forall content, write_error svc default_filename content = None) ->
  run_script svc st = (0%Z, st')
  /\ exists text prompt,
       generate_reply svc prompt = Ok text
       /\ In (GenerateContent prompt) (trace st')
       /\ files st' !! "PRD.md" = Some text
       /\ (text <> EmptyString -> files st' !! "PRD.md" <> Some EmptyString).
Proof.
  intros Hkey Hne Hbody Hopen Hwrite. split.
  - unfold run_script. rewrite (main_with_key svc st key Hkey Hne).
    unfold try_except. rewrite Hbody. reflexivity.
  - apply main_body_steps in Hbody
      as [(e & He & _)|(s1 & _ & [(e & He & _)|(text & s2 & Hgen & Hsave)])];
      try discriminate.
    destruct (generate_prd_run svc s1) as (s2' & Hrun & Ht & _ & _).
    rewrite Hgen in Hrun. injection Hrun as Hreply <-.
    pose proof (save_prd_outcome svc text default_filename s2) as Hout.
    rewrite Hsave, Hopen, Hwrite in Hout. simpl in Hout.
    destruct Hout as (_ & _ & _ & _ & _ & Hfile & Htr).
    exists text, (prd_prompt (join nl (conversation_history s1))).
    repeat split; auto.
    + rewrite Htr, Ht. apply in_or_app. left. apply in_or_app. right.
      right. left. reflexivity.
    + intros Htext. change "PRD.md" with default_filename.
      rewrite Hfile. congruence.
Qed.

Lemma saved_document_is_the_reply_witness :
  let svc := Sample.healthy "# PRD" in
  let st := Sample.start_state [Line "a task tracker"; Line "done"] in
  let st' := (main_body svc (agent_ready st "sample-key")).2 in
  run_script svc st = (0%Z, st')
  /\ exists text prompt,
       generate_reply svc prompt = Ok text
       /\ In (GenerateContent prompt) (trace st')
       /\ files st' !! "PRD.md" = Some text
       /\ (text <> EmptyString -> files st' !! "PRD.md" <> Some EmptyString).
Proof.
  intros svc st st'.
  refine (saved_document_is_the_reply svc st "sample-key" st' eq_refl _ _ eq_refl _).
  - discriminate.
  - vm_compute. reflexivity.
  - intros content. reflexivity.
Defined.

(** C9, as stated, fails: the service answers the generation call with an
    empty text, the run is successful, and PRD.md exists and is empty. *)
Lemma empty_document_after_successful_run :
  let svc := Sample.healthy "" in
  let st := Sample.start_state [Line "a task tracker"; Line "done"] in
  (run_script svc st).1 = 0%Z
  /\ (main_body svc (agent_ready st "sample-key")).1 = Ok tt
  /\ last (trace (run_script svc st).2) = Some (Print (save_success_report "PRD.md"))
  /\ files (run_script svc st).2 !! "PRD.md" = Some EmptyString.
Proof.
  intros svc st.
  split; [vm_compute; reflexivity|].
  split; [vm_compute; reflexivity|].
  split; vm_compute; reflexivity.
Qed.

(** ** Errors *)

(** An error leaves the loop only as an interrupt or the end of input at
    a read, or as the error of a call of the chat session. *)
Lemma whys_loop_raises svc rng :
  forall u st e st',
  whys_loop svc rng u st = (Raise e, st') ->
  e = KeyboardInterrupt
  \/ e = Exception "EOF when reading a line"
  \/ exists k p, chat_reply svc k p = Raise e.
Proof.
  induction rng as [|i rng IH]; intros u st e st' Hrun; [discriminate|].
  rewrite whys_loop_cons in Hrun.
  destruct st as [env sin fls key name turns hist tr]. run_prims in Hrun.
  destruct (chat_reply svc turns (why_prompt u)) as [resp|e0] eqn:Hq.
  2:{ injection Hrun as <- <-. right. right. eauto. }
  destruct sin as [|[text|] rest]; run_prims in Hrun.
  - injection Hrun as <- <-. auto.
  - destruct (is_exit text); run_prims in Hrun; [discriminate|].
    eapply IH. exact Hrun.
  - injection Hrun as <- <-. auto.
Qed.

Lemma start_interview_raises svc st e st' :
  start_interview svc st = (Raise e, st') ->
  e = KeyboardInterrupt
  \/ e = Exception "EOF when reading a line"
  \/ exists k p, chat_reply svc k p = Raise e.
Proof.
  destruct (stdin st) as [|[u0|] rest] eqn:Hin.
  - destruct st as [env sin fls key name turns hist tr]. simpl in Hin. subst sin.
    unfold start_interview. run_prims. intros [= <- <-]. auto.
  - rewrite (start_interview_opened svc st u0 rest Hin). apply whys_loop_raises.
  - destruct st as [env sin fls key name turns hist tr]. simpl in Hin. subst sin.
    unfold start_interview. run_prims. intros [= <- <-]. auto.
Qed.


(** * Further properties of the script *)

(** ** Trimmed questions *)

Lemma append_cons a s q : String a s +:+ q = String a (s +:+ q).
Proof. reflexivity. Qed.

Lemma append_nil q : EmptyString +:+ q = q.
Proof. reflexivity. Qed.

Lemma space_width_lstrip s : space_width (lstrip s) = 0.
Proof.
  remember (String.length s) as n eqn:Hn. revert s Hn.
  induction n as [n IH] using lt_wf_ind. intros s Hn.
  destruct s as [|a r1]; [reflexivity|]. cbn [lstrip].
  destruct (is_space a) eqn:Ha.
  { apply (IH (String.length r1)); [subst n; simpl; lia | reflexivity]. }
  destruct r1 as [|b r2]; [cbn [space_width]; rewrite Ha; reflexivity|].
  destruct (two_byte_space a b) eqn:Hab.
  { apply (IH (String.length r2)); [subst n; simpl; lia | reflexivity]. }
  destruct r2 as [|c r3]; [cbn [space_width]; rewrite Ha, Hab; reflexivity|].
  destruct (three_byte_space a b c) eqn:Habc.
  { apply (IH (String.length r3)); [subst n; simpl; lia | reflexivity]. }
  cbn [space_width]. rewrite Ha, Hab, Habc. reflexivity.
Qed.

(** A whitespace character at the head of a text stays one when the text
    is extended. *)
Lemma space_width_append p q :
  space_width p <> 0 -> space_width (p +:+ q) = space_width p.
Proof.
  destruct p as [|a [|b [|c p]]]; rewrite ?append_cons, ?append_nil;
    cbn [space_width]; try (intros N; contradiction).
  - destruct (is_space a); [reflexivity | intros N; contradiction].
  - destruct (is_space a); [reflexivity|].
    destruct (two_byte_space a b); [reflexivity | intros N; contradiction].
  - destruct (is_space a); [reflexivity|].
    destruct (two_byte_space a b); reflexivity.
Qed.

(** Stripping on the left takes a whole whitespace character at once. *)
Lemma lstrip_one_space w q : one_space w = true -> lstrip (w +:+ q) = lstrip q.
Proof.
  unfold one_space. intros Hw. apply andb_true_iff in Hw as [Hpos Hlen].
  apply Nat.ltb_lt in Hpos. apply Nat.eqb_eq in Hlen. revert Hpos Hlen.
  destruct w as [|a [|b [|c w]]]; rewrite ?append_cons, ?append_nil;
    cbn [space_width String.length lstrip]; try lia.
  - destruct (is_space a); [reflexivity | lia].
  - destruct (is_space a); [lia|].
    destruct (two_byte_space a b); [reflexivity | lia].
  - destruct (is_space a); [lia|].
    destruct (two_byte_space a b); [lia|].
    destruct (three_byte_space a b c); [|lia].
    intros _ Hlen. destruct w; [rewrite append_nil; reflexivity | simpl in Hlen; lia].
Qed.

(** What stripping on the right cuts off is whitespace. *)
Lemma rstrip_cut s : exists q, s = rstrip s +:+ q /\ all_space q = true.
Proof.
  induction s as [|c s IH]; [exists EmptyString; auto|].
  cbn [rstrip]. destruct (all_space (String c s)) eqn:Hall.
  - exists (String c s). auto.
  - destruct IH as (q & Hs & Hq). exists q. rewrite append_cons, <- Hs. auto.
Qed.

Lemma space_width_rstrip s : space_width s = 0 -> space_width (rstrip s) = 0.
Proof.
  intros Hs. destruct (rstrip_cut s) as (q & Hcut & _).
  destruct (Nat.eq_dec (space_width (rstrip s)) 0) as [H0|Hne]; [exact H0|].
  rewrite Hcut, (space_width_append _ q Hne) in Hs. contradiction.
Qed.

Lemma ends_with_space_rstrip s : ends_with_space (rstrip s) = false.
Proof.
  induction s as [|c s IH]; [reflexivity|].
  cbn [rstrip]. destruct (all_space (String c s)) eqn:Hall; [reflexivity|].
  cbn [ends_with_space]. rewrite IH, orb_false_r.
  destruct (one_space (String c (rstrip s))) eqn:Hone; [|reflexivity].
  destruct (rstrip_cut s) as (q & Hcut & Hq).
  unfold all_space in Hall.
  replace (String c s) with (String c (rstrip s) +:+ q) in Hall
    by (rewrite append_cons, <- Hcut; reflexivity).
  rewrite (lstrip_one_space _ q Hone) in Hall.
  unfold all_space in Hq. rewrite Hq in Hall. discriminate.
Qed.

Lemma trimmed_strip s : trimmed (strip s) = true.
Proof.
  unfold trimmed, strip, starts_with_space.
  rewrite (space_width_rstrip _ (space_width_lstrip s)), ends_with_space_rstrip.
  reflexivity.
Qed.

(** ** Reading a trace *)

Lemma answers_app tr1 tr2 : answers (tr1 ++ tr2) = answers tr1 ++ answers tr2.
Proof.
  induction tr1 as [|[text|prompt [line|e]|prompt|prompt] tr1 IH]; simpl;
    rewrite ?IH; reflexivity.
Qed.

Lemma prompts_sent_app tr1 tr2 :
  prompts_sent (tr1 ++ tr2) = prompts_sent tr1 ++ prompts_sent tr2.
Proof.
  induction tr1 as [|[text|prompt got|prompt|prompt] tr1 IH]; simpl;
    rewrite ?IH; reflexivity.
Qed.

Lemma printed_app text tr1 tr2 :
  printed text (tr1 ++ tr2) = printed text tr1 || printed text tr2.
Proof. apply existsb_app. Qed.

Lemma length_answers tr : length (answers tr) = count is_answer tr.
Proof.
  induction tr as [|[text|prompt [line|e]|prompt|prompt] tr IH]; simpl;
    rewrite ?IH; reflexivity.
Qed.

Lemma length_prompts_sent tr : length (prompts_sent tr) = count is_send tr.
Proof.
  induction tr as [|[text|prompt got|prompt|prompt] tr IH]; simpl;
    rewrite ?IH; reflexivity.
Qed.

(** The line that announces a question is not the early-exit notice. *)
Lemma question_line_is_no_notice i q :
  String.eqb (Fore.BLUE +:+ "Agent (" +:+ str_of_nat (i + 1) +:+ "/5): "
              +:+ Style.RESET_ALL +:+ q) early_exit_notice = false.
Proof. reflexivity. Qed.

Lemma removelast_cons2 {A} (a b : A) (l : list A) :
  removelast (a :: b :: l) = a :: removelast (b :: l).
Proof. reflexivity. Qed.

(** ** What a returning loop leaves behind *)

(** The loop that returns has, for each round, read one line and recorded
    one exchange: the trimmed question of the service and the answer as it
    was typed.  Each call of the service quoted the answer read just
    before it, and the early-exit notice was printed exactly when the last
    answer read is an exit keyword. *)
Lemma whys_loop_transcript svc rng :
  forall u st st',
  whys_loop svc rng u st = (Ok tt, st') ->
  exists qas t,
    trace st' = trace st ++ t
    /\ answers t = map snd qas
    /\ conversation_history st' = conversation_history st ++ flat_map exchange qas
    /\ Forall (fun qa => trimmed qa.1 = true) qas
    /\ prompts_sent t = map why_prompt (removelast (u :: answers t))
    /\ printed early_exit_notice t = from_option is_exit false (last (answers t))
    /\ stdin st = map Line (answers t) ++ stdin st'.
Proof.
  induction rng as [|i rng IH]; intros u st st' Hrun.
  - injection Hrun as <-. exists [], []. rewrite !app_nil_r. simpl.
    repeat split; auto.
  - rewrite whys_loop_cons in Hrun.
    destruct st as [env sin fls key name turns hist tr]. run_prims in Hrun.
    destruct (chat_reply svc turns (why_prompt u)) as [resp|e]; [|discriminate].
    destruct sin as [|[text|] rest]; run_prims in Hrun; try discriminate.
    destruct (is_exit text) eqn:Hx; run_prims in Hrun.
    + injection Hrun as <-. exists [(strip resp, text)]. eexists [_; _; _; _].
      cbn [trace conversation_history stdin]. rewrite <- !app_assoc.
      split; [reflexivity|]. cbn [answers map snd flat_map exchange fst app].
      repeat split; auto.
      constructor; [apply trimmed_strip | constructor].
    + apply IH in Hrun as (qas & t & Ht & Hans & Hh & Htrim & Hp & Hn & Hin).
      cbn [trace conversation_history stdin] in Ht, Hh, Hin |- *.
      exists ((strip resp, text) :: qas). eexists (_ :: _ :: _ :: t).
      rewrite Ht, Hh, <- !app_assoc. split; [reflexivity|].
      cbn [answers map snd flat_map exchange fst app prompts_sent].
      rewrite removelast_cons2, Hp, Hin, <- Hans.
      repeat split; auto.
      * constructor; [apply trimmed_strip | exact Htrim].
      * cbn [printed existsb]. rewrite question_line_is_no_notice. cbn [orb].
        change (printed early_exit_notice t
                = from_option is_exit false (last (text :: answers t))).
        rewrite Hn, last_cons. destruct (last (answers t)); simpl; congruence.
Qed.

(** ** What any run of the loop stays within *)

(** Returning or raising, the loop takes at most one item of standard
    input and makes at most one call of the chat session per round,
    numbers the session's turns by its calls, makes no generation call and
    touches no file. *)
Lemma whys_loop_bounds svc rng :
  forall u st r st',
  whys_loop svc rng u st = (r, st') ->
  exists consumed t,
    stdin st = consumed ++ stdin st'
    /\ length consumed <= length rng
    /\ trace st' = trace st ++ t
    /\ count is_send t <= length rng
    /\ chat_turns st' = chat_turns st + count is_send t
    /\ count is_generate t = 0
    /\ files st' = files st.
Proof.
  induction rng as [|i rng IH]; intros u st r st' Hrun.
  - injection Hrun as <- <-. exists [], []. rewrite app_nil_r. simpl.
    repeat split; auto.
  - rewrite whys_loop_cons in Hrun.
    destruct st as [env sin fls key name turns hist tr]. run_prims in Hrun.
    destruct (chat_reply svc turns (why_prompt u)) as [resp|e].
    2:{ injection Hrun as <- <-. exists [], [SendMessage (why_prompt u)].
        simpl. repeat split; auto; lia. }
    destruct sin as [|[text|] rest]; run_prims in Hrun.
    + injection Hrun as <- <-. exists []. eexists [_; _; _].
      simpl. rewrite <- !app_assoc. repeat split; auto; tally; lia.
    + destruct (is_exit text); run_prims in Hrun.
      * injection Hrun as <- <-. exists [Line text]. eexists [_; _; _; _].
        simpl. rewrite <- !app_assoc. repeat split; auto; tally; lia.
      * apply IH in Hrun as (consumed & t & Hin & Hlen & Ht & Hs & Hc & Hg & Hf).
        simpl in Hin, Ht, Hc, Hf. exists (Line text :: consumed).
        eexists (_ :: _ :: _ :: t).
        rewrite Hin, Ht, Hc, Hf, <- !app_assoc. simpl.
        repeat split; auto; tally; lia.
    + injection Hrun as <- <-. exists [CtrlC]. eexists [_; _; _].
      simpl. rewrite <- !app_assoc. repeat split; auto; tally; lia.
Qed.

(** ** The interview, whatever its outcome *)

(** An interview that finds no line at the opening question stops there
    with the error [e] of the read, having recorded the system instruction
    and the opening question and called nobody. *)
Lemma start_interview_no_answer svc st e rest :
  (stdin st = [] /\ e = Exception "EOF when reading a line" /\ rest = [])
  \/ (stdin st = CtrlC :: rest /\ e = KeyboardInterrupt) ->
  exists st',
    start_interview svc st = (Raise e, st')
    /\ conversation_history st'
       = conversation_history st
           ++ ["System: " +:+ system_instruction; "Agent: " +:+ initial_question]
    /\ trace st' = trace st ++ opening_events (Raise e)
    /\ stdin st' = rest
    /\ chat_turns st' = chat_turns st
    /\ files st' = files st.
Proof.
  intros Hin. destruct st as [env sin fls key name turns hist tr]. simpl in Hin.
  unfold start_interview, opening_events.
  destruct Hin as [(-> & -> & ->)|(-> & ->)]; run_prims;
    (eexists; split; [reflexivity|]); simpl; rewrite <- !app_assoc; auto.
Qed.

(** X2. Returning or raising, [start_interview] takes at most six items
    from standard input, makes at most five calls of the chat session,
    advances the session's turn count by exactly the calls it made, makes
    no generation call and leaves every file as it was. *)
Theorem interview_stays_within_bounds svc st :
  let after := (start_interview svc st).2 in
  let ev := events_since st after in
  (exists consumed,
     stdin st = consumed ++ stdin after /\ length consumed <= 6)
  /\ rounds_started ev <= 5
  /\ chat_turns after = chat_turns st + rounds_started ev
  /\ count is_generate ev = 0
  /\ files after = files st.
Proof.
  intros after ev. subst ev after. unfold rounds_started.
  destruct (stdin st) as [|[u0|] rest] eqn:Hin.
  - destruct (start_interview_no_answer svc st _ [] (or_introl (conj Hin (conj eq_refl eq_refl))))
      as (st' & -> & _ & Ht & Hs & Hc & Hf).
    simpl. rewrite (events_since_app _ _ _ Ht), Hs, Hc, Hf.
    split; [exists []; simpl; split; [reflexivity|lia]|].
    unfold opening_events. tally. repeat split; lia.
  - rewrite (start_interview_opened svc st u0 rest Hin).
    destruct (whys_loop svc (seq 0 5) u0 (opened st u0 rest)) as [r st'] eqn:Hrun.
    apply whys_loop_bounds in Hrun as (consumed & t & Hs & Hlen & Ht & Hsend & Hc & Hg & Hf).
    simpl in Hs, Hlen, Ht, Hsend, Hc, Hf |- *. rewrite <- app_assoc in Ht.
    rewrite (events_since_app _ _ _ Ht), !count_app, Hc, Hf, Hg.
    split; [exists (Line u0 :: consumed); rewrite Hs; simpl; split; [reflexivity|lia]|].
    unfold opening_events. tally. repeat split; lia.
  - destruct (start_interview_no_answer svc st _ rest (or_intror (conj Hin eq_refl)))
      as (st' & -> & _ & Ht & Hs & Hc & Hf).
    simpl. rewrite (events_since_app _ _ _ Ht), Hs, Hc, Hf.
    split; [exists [CtrlC]; simpl; split; [reflexivity|lia]|].
    unfold opening_events. tally. repeat split; lia.
Qed.

(** ** The interview that returns *)

Lemma opening_has_no_notice got :
  printed early_exit_notice (opening_events got) = false.
Proof. destruct got; reflexivity. Qed.

(** The facts of [whys_loop_transcript], for the whole interview. *)
Lemma start_interview_transcript svc st st' :
  start_interview svc st = (Ok tt, st') ->
  exists qas,
    answers (events_since st st') = map snd qas
    /\ stdin st = map Line (map snd qas) ++ stdin st'
    /\ head (map fst qas) = Some initial_question
    /\ length qas = rounds_completed (events_since st st') + 1
    /\ conversation_history st'
       = conversation_history st
           ++ ("System: " +:+ system_instruction) :: flat_map exchange qas
    /\ Forall (fun qa => trimmed qa.1 = true) qas
    /\ prompts_sent (events_since st st')
       = map why_prompt (removelast (answers (events_since st st')))
    /\ printed early_exit_notice (events_since st st')
       = from_option is_exit false (last (answers (events_since st st'))).
Proof.
  intros Hrun.
  destruct (stdin st) as [|[u0|] rest] eqn:Hin.
  - destruct (start_interview_no_answer svc st _ [] (or_introl (conj Hin (conj eq_refl eq_refl))))
      as (s & He & _). rewrite He in Hrun. discriminate.
  - rewrite (start_interview_opened svc st u0 rest Hin) in Hrun.
    pose proof (whys_loop_returns _ _ _ _ _ Hrun)
      as (h1 & t1 & _ & Ht1 & _ & Heq & _ & Hge).
    apply whys_loop_transcript in Hrun
      as (qas & t & Ht & Hans & Hh & Htrim & Hp & Hn & Hs).
    rewrite Ht in Ht1. apply app_inv_head in Ht1. subst t1.
    specialize (Hge ltac:(discriminate)).
    rewrite <- Heq, <- length_answers in Hge.
    simpl in Ht, Hh, Hs. rewrite <- app_assoc in Ht.
    rewrite (events_since_app _ _ _ Ht), answers_app, prompts_sent_app, printed_app.
    exists ((initial_question, u0) :: qas).
    unfold rounds_completed.
    rewrite count_app, <- (length_answers t), opening_has_no_notice.
    unfold opening_events. cbn [answers prompts_sent app map fst snd head flat_map orb].
    rewrite Hs, Hh, <- Hans, <- app_assoc. tally.
    repeat split; auto.
    + rewrite Hans, length_map. lia.
    + rewrite Hn. destruct (answers t) as [|a l]; [simpl in Hge; lia|].
      rewrite (last_cons u0). destruct (last (a :: l)) eqn:Hl; [reflexivity|].
      apply last_None in Hl. discriminate.
  - destruct (start_interview_no_answer svc st _ rest (or_intror (conj Hin eq_refl)))
      as (s & He & _). rewrite He in Hrun. discriminate.
Qed.

(** X3. An interview that returns has added to the history it found, in
    this order: the system instruction, then one Agent entry and one User
    entry for the opening question and for every completed round.  The
    User entries hold, unchanged, the lines taken from standard input, and
    no line was taken beyond them.  The history found is kept in front, so
    a second interview on the same agent adds to the first. *)
Theorem history_records_exchanges_verbatim svc st st' :
  start_interview svc st = (Ok tt, st') ->
  exists qas,
    conversation_history st'
      = conversation_history st
          ++ ("System: " +:+ system_instruction) :: flat_map exchange qas
    /\ head (map fst qas) = Some initial_question
    /\ length qas = rounds_completed (events_since st st') + 1
    /\ stdin st = map Line (map snd qas) ++ stdin st'.
Proof.
  intros Hrun.
  apply start_interview_transcript in Hrun as (qas & _ & Hs & Hq & Hlen & Hh & _).
  exists qas. auto.
Qed.

Lemma history_records_exchanges_verbatim_witness :
  let svc := Sample.healthy "# PRD" in
  let st := Sample.start_state [Line "A task tracker "; Line "DONE"; Line "never read"] in
  let st' := (start_interview svc st).2 in
  conversation_history st'
    = [ "System: " +:+ system_instruction;
        "Agent: " +:+ initial_question; "User: A task tracker ";
        "Agent: Why is that important to you?"; "User: DONE" ]
  /\ exists qas,
       conversation_history st'
         = conversation_history st
             ++ ("System: " +:+ system_instruction) :: flat_map exchange qas
       /\ head (map fst qas) = Some initial_question
       /\ length qas = rounds_completed (events_since st st') + 1
       /\ stdin st = map Line (map snd qas) ++ stdin st'.
Proof.
  intros svc st st'. split; [vm_compute; reflexivity|].
  apply (history_records_exchanges_verbatim svc st st').
  vm_compute. reflexivity.
Defined.

(** X4. In an interview that returns, the questions recorded in the
    history, the opening one and those the service gave, neither begin nor
    end with a whitespace character, be it one of ASCII or one of the
    Unicode spaces that [str.strip()] removes. *)
Theorem recorded_questions_are_trimmed svc st st' :
  start_interview svc st = (Ok tt, st') ->
  exists qas,
    conversation_history st'
      = conversation_history st
          ++ ("System: " +:+ system_instruction) :: flat_map exchange qas
    /\ Forall (fun qa => trimmed qa.1 = true) qas.
Proof.
  intros Hrun.
  apply start_interview_transcript in Hrun as (qas & _ & _ & _ & _ & Hh & Htrim & _).
  exists qas. auto.
Qed.

Lemma recorded_questions_are_trimmed_witness :
  let svc := Sample.padding in
  let st := Sample.start_state [Line "a task tracker"; Line "done"] in
  let st' := (start_interview svc st).2 in
  trimmed Sample.padded_question = false
  /\ conversation_history st'
     = [ "System: " +:+ system_instruction;
         "Agent: " +:+ initial_question; "User: a task tracker";
         "Agent: Why do you need it?"; "User: done" ]
  /\ exists qas,
       conversation_history st'
         = conversation_history st
             ++ ("System: " +:+ system_instruction) :: flat_map exchange qas
       /\ Forall (fun qa => trimmed qa.1 = true) qas.
Proof.
  intros svc st st'. split; [reflexivity|]. split; [vm_compute; reflexivity|].
  apply (recorded_questions_are_trimmed svc st st').
  vm_compute. reflexivity.
Defined.



(** X6. In an interview that returns, "Ending interview early..." was
    printed exactly when the last answer read is an exit keyword; this
    includes an exit keyword given in the fifth round, after which no
    round was left to skip. *)
Theorem early_exit_notice_iff_last_answer_exits svc st st' :
  start_interview svc st = (Ok tt, st') ->
  printed early_exit_notice (events_since st st')
    = from_option is_exit false (last (answers (events_since st st'))).
Proof.
  intros Hrun.
  apply start_interview_transcript in Hrun as (qas & _ & _ & _ & _ & _ & _ & _ & Hn).
  exact Hn.
Qed.

Lemma early_exit_notice_iff_last_answer_exits_witness :
  let svc := Sample.healthy "# PRD" in
  let st := Sample.start_state
    [Line "a task tracker"; Line "one"; Line "two"; Line "three"; Line "four";
     Line "Exit"] in
  let st' := (start_interview svc st).2 in
  rounds_started (events_since st st') = 5
  /\ last (answers (events_since st st')) = Some "Exit"
  /\ printed early_exit_notice (events_since st st') = true.
Proof.
  intros svc st st'. split; [vm_compute; reflexivity|].
  split; [vm_compute; reflexivity|].
  rewrite (early_exit_notice_iff_last_answer_exits svc st st');
    vm_compute; reflexivity.
Defined.

(** ** The script without a usable credential *)

Lemma run_script_without_key svc st :
  truthy (environ st !! "GOOGLE_API_KEY") = false ->
  exists st',
    run_script svc st = (1%Z, st')
    /\ trace st' = trace st ++ missing_key_reports
    /\ stdin st' = stdin st
    /\ files st' = files st
    /\ genai_api_key st' = genai_api_key st
    /\ conversation_history st' = conversation_history st.
Proof.
  intros Hkey. destruct st as [env sin fls k name turns hist tr]. simpl in Hkey.
  unfold run_script, main, configure_genai. run_prims. rewrite Hkey.
  cbn [negb]. run_prims. eexists. split; [reflexivity|].
  simpl. rewrite <- app_assoc. repeat split; reflexivity.
Qed.

(** X1. A GOOGLE_API_KEY that is set to the empty string is treated as a
    missing one: the two diagnostic lines are printed, the process exits
    with status 1, no key is configured, and neither standard input, the
    files nor the services were touched. *)
Theorem empty_credential_counts_as_missing svc st :
  environ st !! "GOOGLE_API_KEY" = Some EmptyString ->
  let r := run_script svc st in
  r.1 = 1%Z
  /\ events_since st r.2 = missing_key_reports
  /\ genai_api_key r.2 = genai_api_key st
  /\ stdin r.2 = stdin st
  /\ files r.2 = files st.
Proof.
  intros Hkey r. subst r.
  destruct (run_script_without_key svc st) as (st' & -> & Ht & Hs & Hf & Hk & _).
  { rewrite Hkey. reflexivity. }
  simpl. rewrite (events_since_app _ _ _ Ht). auto.
Qed.

Lemma empty_credential_counts_as_missing_witness :
  let svc := Sample.healthy "# PRD" in
  let st := Sample.rerun_state {[ "GOOGLE_API_KEY" := "" ]} [Line "a task tracker"] in
  let r := run_script svc st in
  r.1 = 1%Z
  /\ events_since st r.2 = missing_key_reports
  /\ genai_api_key r.2 = genai_api_key st
  /\ stdin r.2 = stdin st
  /\ files r.2 = files st.
Proof.
  intros svc st. apply (empty_credential_counts_as_missing svc st). reflexivity.
Defined.

(** ** The script with a credential *)

(** How [main] ends, by the outcome of the body of its [try]. *)
Lemma run_script_with_key svc st key r s1 :
  environ st !! "GOOGLE_API_KEY" = Some key ->
  key <> EmptyString ->
  main_body svc (agent_ready st key) = (r, s1) ->
  exists st',
    run_script svc st
      = (match r with Raise (SystemExit code) => code | _ => 0%Z end, st')
    /\ trace st'
       = trace s1
           ++ match r with
              | Raise KeyboardInterrupt => [Print interrupted_report]
              | Raise (Exception msg) => [Print (error_report msg)]
              | _ => []
              end
    /\ files st' = files s1
    /\ conversation_history st' = conversation_history s1.
Proof.
  intros Hkey Hne Hbody. unfold run_script.
  rewrite (main_with_key svc st key Hkey Hne). unfold try_except. rewrite Hbody.
  destruct s1 as [env sin fls k name turns hist tr].
  destruct r as [[]|[|code|msg]]; cbn [main_handlers]; run_prims;
    (eexists; split; [reflexivity|]); simpl; rewrite ?app_nil_r; auto.
Qed.

(** The body of [main]'s [try] after an interview that returned. *)
Lemma main_body_after_interview svc st s1 :
  start_interview svc st = (Ok tt, s1) ->
  exists s2,
    generate_prd svc s1
      = (generate_reply svc (prd_prompt (join nl (conversation_history s1))), s2)
    /\ trace s2
       = trace s1 ++ [Print generating_notice;
                      GenerateContent (prd_prompt (join nl (conversation_history s1)))]
    /\ conversation_history s2 = conversation_history s1
    /\ files s2 = files s1
    /\ main_body svc st
       = match generate_reply svc (prd_prompt (join nl (conversation_history s1))) with
         | Ok text => save_prd svc text default_filename s2
         | Raise e => (Raise e, s2)
         end.
Proof.
  intros Hstart. destruct (generate_prd_run svc s1) as (s2 & Hgen & Ht & Hh & Hf).
  exists s2. repeat split; auto.
  unfold main_body, bind. rewrite Hstart, Hgen. reflexivity.
Qed.

(** The files and the generation calls of an interview, whatever its
    outcome. *)
Lemma start_interview_frame svc st r s1 :
  start_interview svc st = (r, s1) ->
  exists t,
    trace s1 = trace st ++ t /\ count is_generate t = 0 /\ files s1 = files st.
Proof.
  intros Hrun.
  destruct (stdin st) as [|[u0|] rest] eqn:Hin.
  - destruct (start_interview_no_answer svc st _ [] (or_introl (conj Hin (conj eq_refl eq_refl))))
      as (st' & He & _ & Ht & _ & _ & Hf).
    rewrite He in Hrun. injection Hrun as <- <-. eauto.
  - rewrite (start_interview_opened svc st u0 rest Hin) in Hrun.
    apply whys_loop_bounds in Hrun as (consumed & t & _ & _ & Ht & _ & _ & Hg & Hf).
    simpl in Ht, Hf. rewrite <- app_assoc in Ht.
    eexists. split; [exact Ht|]. rewrite count_app, Hg. auto.
  - destruct (start_interview_no_answer svc st _ rest (or_intror (conj Hin eq_refl)))
      as (st' & He & _ & Ht & _ & _ & Hf).
    rewrite He in Hrun. injection Hrun as <- <-. eauto.
Qed.

Lemma main_body_interview_raises svc st e s1 :
  start_interview svc st = (Raise e, s1) -> main_body svc st = (Raise e, s1).
Proof. intros Hstart. unfold main_body, bind. rewrite Hstart. reflexivity. Qed.

(** X7. With the credential set and standard input at its end when the
    opening question is asked, the script calls neither service and
    touches no file: it prints the opening lines and the report
    "An error occurred: EOF when reading a line", leaves the system
    instruction and the opening question in the history, and exits with
    status 0. *)
Theorem end_of_input_at_opening_question svc st key :
  environ st !! "GOOGLE_API_KEY" = Some key ->
  key <> EmptyString ->
  stdin st = [] ->
  let r := run_script svc st in
  r.1 = 0%Z
  /\ events_since st r.2
     = opening_events (Raise (Exception "EOF when reading a line"))
         ++ [Print (error_report "EOF when reading a line")]
  /\ conversation_history r.2
     = ["System: " +:+ system_instruction; "Agent: " +:+ initial_question]
  /\ files r.2 = files st.
Proof.
  intros Hkey Hne Hin r. subst r.
  destruct (start_interview_no_answer svc (agent_ready st key)
              (Exception "EOF when reading a line") [])
    as (s1 & Hstart & Hh & Ht & _ & _ & Hf).
  { left. auto. }
  apply main_body_interview_raises in Hstart.
  destruct (run_script_with_key svc st key _ s1 Hkey Hne Hstart)
    as (st' & -> & Ht' & Hf' & Hh').
  simpl in Ht, Hh, Hf |- *. rewrite Ht, <- app_assoc in Ht'.
  rewrite (events_since_app _ _ _ Ht'), Hh', Hh, Hf', Hf. auto.
Qed.

Lemma end_of_input_at_opening_question_witness :
  let svc := Sample.healthy "# PRD" in
  let st := Sample.rerun_state {[ "GOOGLE_API_KEY" := "sample-key" ]} [] in
  let r := run_script svc st in
  r.1 = 0%Z
  /\ events_since st r.2
     = opening_events (Raise (Exception "EOF when reading a line"))
         ++ [Print (error_report "EOF when reading a line")]
  /\ conversation_history r.2
     = ["System: " +:+ system_instruction; "Agent: " +:+ initial_question]
  /\ files r.2 = files st.
Proof.
  intros svc st.
  apply (end_of_input_at_opening_question svc st "sample-key");
    [reflexivity | discriminate | reflexivity].
Defined.

(** X8. When the interview raises, the body of [main]'s [try] raises the
    same error from the same state: the generation call is not made and no
    file is touched. *)
Theorem failed_interview_skips_generation svc st e s1 :
  start_interview svc st = (Raise e, s1) ->
  main_body svc st = (Raise e, s1)
  /\ count is_generate (events_since st s1) = 0
  /\ files s1 = files st.
Proof.
  intros Hstart. split; [apply main_body_interview_raises; exact Hstart|].
  apply start_interview_frame in Hstart as (t & Ht & Hg & Hf).
  rewrite (events_since_app _ _ _ Ht). auto.
Qed.

Lemma failed_interview_skips_generation_witness :
  let svc := Sample.chat_down_at 1 in
  let st := Sample.rerun_state {[ "GOOGLE_API_KEY" := "sample-key" ]}
              [Line "a task tracker"; Line "to plan my week"; Line "never read"] in
  let s1 := (start_interview svc st).2 in
  main_body svc st = (Raise (Exception "503 service unavailable"), s1)
  /\ count is_generate (events_since st s1) = 0
  /\ files s1 = files st.
Proof.
  intros svc st s1.
  apply (failed_interview_skips_generation svc st). vm_compute. reflexivity.
Defined.

(** X9. With the credential set and an interview that returned, a
    generation call that fails with an error of class Exception is made
    once and not again; nothing is written, so a PRD.md of an earlier run
    is kept as it was; [main] reports "An error occurred: ..." and the
    process exits with status 0. *)
Theorem failed_generation_writes_nothing svc st key s1 msg :
  environ st !! "GOOGLE_API_KEY" = Some key ->
  key <> EmptyString ->
  start_interview svc (agent_ready st key) = (Ok tt, s1) ->
  generate_reply svc (prd_prompt (join nl (conversation_history s1)))
    = Raise (Exception msg) ->
  let r := run_script svc st in
  r.1 = 0%Z
  /\ events_since s1 r.2
     = [Print generating_notice;
        GenerateContent (prd_prompt (join nl (conversation_history s1)));
        Print (error_report msg)]
  /\ files r.2 = files st.
Proof.
  intros Hkey Hne Hstart Hreply r. subst r.
  destruct (main_body_after_interview svc _ s1 Hstart) as (s2 & _ & Ht & _ & Hf & Hbody).
  rewrite Hreply in Hbody.
  destruct (run_script_with_key svc st key _ s2 Hkey Hne Hbody)
    as (st' & -> & Ht' & Hf' & _).
  apply start_interview_frame in Hstart as (t & _ & _ & Hf1).
  simpl in Hf1 |- *. rewrite Ht, <- app_assoc in Ht'.
  rewrite (events_since_app _ _ _ Ht'), Hf', Hf, Hf1. auto.
Qed.

Lemma failed_generation_writes_nothing_witness :
  let svc := Sample.generation_down in
  let st := Sample.rerun_state {[ "GOOGLE_API_KEY" := "sample-key" ]}
              [Line "a task tracker"; Line "done"] in
  let s1 := (start_interview svc (agent_ready st "sample-key")).2 in
  let r := run_script svc st in
  r.1 = 0%Z
  /\ events_since s1 r.2
     = [Print generating_notice;
        GenerateContent (prd_prompt (join nl (conversation_history s1)));
        Print (error_report "500 internal error")]
  /\ files r.2 !! "PRD.md" = Some "# Earlier PRD".
Proof.
  intros svc st s1 r.
  destruct (failed_generation_writes_nothing svc st "sample-key" s1 "500 internal error")
    as (Hstatus & Hev & Hf);
    [reflexivity | discriminate | vm_compute; reflexivity | reflexivity |].
  split; [exact Hstatus|]. split; [exact Hev|].
  fold r in Hf. rewrite Hf. reflexivity.
Defined.

(** X10. When the body of [main]'s [try] returns, its events end with the
    generation notice, one generation call and one report of [save_prd],
    success or "Error saving file: ..."; no generation call comes before,
    so every call of the chat session precedes it; and the prompt of the
    call is built on the whole history as the interview left it. *)
Theorem chat_calls_precede_the_generation_call svc st st' :
  main_body svc st = (Ok tt, st') ->
  exists before report,
    events_since st st'
      = before ++ [Print generating_notice;
                   GenerateContent (prd_prompt (join nl (conversation_history st')));
                   Print report]
    /\ count is_generate before = 0
    /\ (report = save_success_report default_filename
        \/ exists msg, report = save_error_report msg).
Proof.
  intros Hbody.
  apply main_body_steps in Hbody
    as [(e & He & _)|(s1 & Hstart & [(e & He & _)|(text & s2 & Hgen & Hsave)])];
    try discriminate.
  apply start_interview_frame in Hstart as (t & Ht1 & Hg & _).
  destruct (generate_prd_run svc s1) as (s2' & Hrun & Ht2 & Hh2 & _).
  rewrite Hgen in Hrun. injection Hrun as _ <-.
  pose proof (save_prd_outcome svc text default_filename s2) as Hout.
  rewrite Hsave in Hout. simpl in Hout. destruct Hout as (Hh3 & _ & _ & _ & Hcase).
  assert (Hrep : exists report,
            trace st' = trace s2 ++ [Print report]
            /\ (report = save_success_report default_filename
                \/ exists msg, report = save_error_report msg)).
  { destruct (open_error svc default_filename) as [[|code|msg]|].
    - destruct Hcase as ([=] & _).
    - destruct Hcase as ([=] & _).
    - destruct Hcase as (_ & _ & Ht). eauto.
    - destruct (write_error svc default_filename text) as [[|code|msg]|].
      + destruct Hcase as ([=] & _).
      + destruct Hcase as ([=] & _).
      + destruct Hcase as (_ & _ & Ht). eauto.
      + destruct Hcase as (_ & _ & Ht). eauto. }
  destruct Hrep as (report & Ht3 & Hreport).
  exists t, report. rewrite Hh3, Hh2.
  rewrite Ht2, Ht1, <- !app_assoc in Ht3.
  rewrite (events_since_app _ _ _ Ht3). auto.
Qed.

Lemma chat_calls_precede_the_generation_call_witness :
  let svc := Sample.healthy "# PRD" in
  let st := Sample.start_state [Line "a task tracker"; Line "done"] in
  let st' := (main_body svc st).2 in
  rounds_started (events_since st st') = 1
  /\ exists before report,
       events_since st st'
         = before ++ [Print generating_notice;
                      GenerateContent (prd_prompt (join nl (conversation_history st')));
                      Print report]
       /\ count is_generate before = 0
       /\ (report = save_success_report default_filename
           \/ exists msg, report = save_error_report msg).
Proof.
  intros svc st st'. split; [vm_compute; reflexivity|].
  apply (chat_calls_precede_the_generation_call svc st st').
  vm_compute. reflexivity.
Defined.

(** X11. [save_prd] lets an interrupt through.  With the credential set,
    an interview that returned and a generation call that answered, a
    Ctrl-C raised while PRD.md is being opened is reported by [main] as
    "Process interrupted.", with no report of [save_prd] before it; no
    file is touched and the process exits with status 0. *)
Theorem interrupt_while_saving_reaches_main svc st key s1 text :
  environ st !! "GOOGLE_API_KEY" = Some key ->
  key <> EmptyString ->
  start_interview svc (agent_ready st key) = (Ok tt, s1) ->
  generate_reply svc (prd_prompt (join nl (conversation_history s1))) = Ok text ->
  open_error svc default_filename = Some KeyboardInterrupt ->
  let r := run_script svc st in
  r.1 = 0%Z
  /\ events_since s1 r.2
     = [Print generating_notice;
        GenerateContent (prd_prompt (join nl (conversation_history s1)));
        Print interrupted_report]
  /\ files r.2 = files st.
Proof.
  intros Hkey Hne Hstart Hreply Hopen r. subst r.
  destruct (main_body_after_interview svc _ s1 Hstart) as (s2 & _ & Ht & _ & Hf & Hbody).
  rewrite Hreply in Hbody.
  pose proof (save_prd_outcome svc text default_filename s2) as Hout.
  rewrite Hopen in Hout. simpl in Hout.
  destruct Hout as (_ & _ & _ & _ & Hraise & Hf2 & Ht2).
  destruct (save_prd svc text default_filename s2) as [r2 s3] eqn:Hsave.
  simpl in Hraise, Hf2, Ht2. subst r2.
  destruct (run_script_with_key svc st key _ s3 Hkey Hne Hbody)
    as (st' & -> & Ht' & Hf' & _).
  apply start_interview_frame in Hstart as (t & _ & _ & Hf1).
  simpl in Hf1 |- *. rewrite Ht2, Ht, <- app_assoc in Ht'.
  rewrite (events_since_app _ _ _ Ht'), Hf', Hf2, Hf, Hf1. auto.
Qed.

Lemma interrupt_while_saving_reaches_main_witness :
  let svc := Sample.interrupted_on_open in
  let st := Sample.rerun_state {[ "GOOGLE_API_KEY" := "sample-key" ]}
              [Line "a task tracker"; Line "done"] in
  let s1 := (start_interview svc (agent_ready st "sample-key")).2 in
  let r := run_script svc st in
  r.1 = 0%Z
  /\ events_since s1 r.2
     = [Print generating_notice;
        GenerateContent (prd_prompt (join nl (conversation_history s1)));
        Print interrupted_report]
  /\ files r.2 = files st.
Proof.
  intros svc st s1 r.
  apply (interrupt_while_saving_reaches_main svc st "sample-key" s1 "# PRD");
    [reflexivity | discriminate | vm_compute; reflexivity | reflexivity | reflexivity].
Defined.

(** ** Errors and the places that catch them *)


